(** * Probing, readiness, liveness and error taxonomy of virtual-kubelet

    A shallow embedding of
    - providers/errors/errors.go   (Module [errors]),
    - manager/prober/prober.go     (Module [prober], Module [manager]),
    - manager/liveness.go          (Module [manager]),
    together with the properties the specification states about them. *)

From Stdlib Require Import ZArith Ascii String.
From stdpp Require Import base option list strings pretty gmap.

Local Open Scope string_scope.

(** ** Go runtime panics

    A nil-pointer dereference or a write into a nil map aborts the calling
    goroutine.  Code that can do so returns an [outcome]. *)

Inductive outcome (A : Type) : Type :=
| Ret (a : A)
| Panic.
Arguments Ret {A} a.
Arguments Panic {A}.

#[export] Instance outcome_ret : MRet outcome := fun _ a => Ret a.
#[export] Instance outcome_bind : MBind outcome := fun _ _ f m =>
  match m with
  | Ret a => f a
  | Panic => Panic
  end.

(** ** providers/errors *)

Module errors.

(** [type ErrorReason string] *)
Definition ErrorReason : Type := string.

Definition ErrorReasonUnknown : ErrorReason := "".
Definition ErrorReasonUnauthorized : ErrorReason := "Unauthorized".
Definition ErrorReasonNotFound : ErrorReason := "NotFound".
Definition ErrorReasonInternalServerError : ErrorReason := "InternalServerError".
Definition ErrorReasonServiceUnavailable : ErrorReason := "ServiceUnavailable".
Definition ErrorReasonTooManyRequests : ErrorReason := "TooManyRequests".
Definition ErrorReasonBadRequest : ErrorReason := "BadRequest".

(** [RetryAfterSeconds] is an [int32]; it is kept as the integer it denotes. *)
Record ErrorDetails : Type := mkErrorDetails { RetryAfterSeconds : Z }.

(** Values of Go's [error] interface that occur in the program.  A nil
    [error] is [None : option error].
    - [errorString] is what [errors.New] and [fmt.Errorf] build;
    - [NumError] is what [strconv.Atoi] builds;
    - [OperationError] is the [*OperationError] of this package, the one
      type with a [Status] method; its [ErrStatus] pointer may be nil. *)
Inductive error : Type :=
| errorString (msg : string)
| NumError (Func Num Err : string)
| OperationError (ErrStatus : option ErrorStatus)
with ErrorStatus : Type :=
| mkErrorStatus (Reason : ErrorReason) (Details : option ErrorDetails)
                (Message : string) (OrigErr : option error).

Definition Reason (s : ErrorStatus) : ErrorReason :=
  match s with mkErrorStatus r _ _ _ => r end.
Definition Details (s : ErrorStatus) : option ErrorDetails :=
  match s with mkErrorStatus _ d _ _ => d end.
Definition Message (s : ErrorStatus) : string :=
  match s with mkErrorStatus _ _ m _ => m end.
Definition OrigErr (s : ErrorStatus) : option error :=
  match s with mkErrorStatus _ _ _ e => e end.

(** The type switch [case Interface]: [Some] of what [t.Status()] returns
    when the dynamic type has a [Status] method, [None] otherwise. *)
Definition asInterface (err : option error) : option (option ErrorStatus) :=
  match err with
  | Some (OperationError st) => Some st
  | _ => None
  end.

(** Dereferencing the pointer [Status()] returned. *)
Definition deref {A : Type} (p : option A) : outcome A :=
  match p with
  | Some a => Ret a
  | None => Panic
  end.

Definition reasonForError (err : option error) : outcome ErrorReason :=
  match asInterface err with
  | Some t => st ← deref t; mret (Reason st)
  | None => mret ErrorReasonUnknown
  end.

Definition IsNotFound (err : option error) : outcome bool :=
  r ← reasonForError err;
  mret (String.eqb r ErrorReasonNotFound).

(** A Go [switch] runs the body of the first matching [case] and leaves the
    switch; the bodies of the first two cases are empty. *)
Definition IsRetryable (err : option error) : outcome bool :=
  r ← reasonForError err;
  if String.eqb r ErrorReasonTooManyRequests then mret false
  else if String.eqb r ErrorReasonServiceUnavailable then mret false
  else if String.eqb r ErrorReasonInternalServerError then mret true
  else mret false.

(** [int(x)] of an [int32] is the same integer. *)
Definition SuggestsClientDelay (err : option error) : outcome (Z * bool) :=
  match asInterface err with
  | Some t =>
      st ← deref t;
      match Details st with
      | Some d =>
          if String.eqb (Reason st) ErrorReasonServiceUnavailable
          then mret (RetryAfterSeconds d, true)
          else if (0 <? RetryAfterSeconds d)%Z
               then mret (RetryAfterSeconds d, true)
               else mret (0%Z, false)
      | None => mret (0%Z, false)
      end
  | None => mret (0%Z, false)
  end.

(** [int32(n)]: two's-complement truncation to 32 bits. *)
Definition int32 (n : Z) : Z := ((n + 2 ^ 31) mod 2 ^ 32 - 2 ^ 31)%Z.

Definition NewNotFound (message : string) (err : option error) : error :=
  OperationError (Some (mkErrorStatus ErrorReasonNotFound None message err)).

Definition NewUnauthorized (message : string) (err : option error) : error :=
  OperationError (Some (mkErrorStatus ErrorReasonUnauthorized None message err)).

Definition NewBadRequest (message : string) (err : option error) : error :=
  OperationError (Some (mkErrorStatus ErrorReasonBadRequest None message err)).

Definition NewTooManyRequests (message : string) (retryAfterSeconds : Z)
    (err : option error) : error :=
  OperationError (Some (mkErrorStatus ErrorReasonTooManyRequests
    (Some (mkErrorDetails (int32 retryAfterSeconds))) message err)).

Definition NewInternalServerError (message : string) (retryAfterSeconds : Z)
    (err : option error) : error :=
  OperationError (Some (mkErrorStatus ErrorReasonInternalServerError
    (Some (mkErrorDetails (int32 retryAfterSeconds))) message err)).

Definition NewServiceUnavailable (message : string) (retryAfterSeconds : Z)
    (err : option error) : error :=
  OperationError (Some (mkErrorStatus ErrorReasonServiceUnavailable
    (Some (mkErrorDetails (int32 retryAfterSeconds))) message err)).

Definition NewUnknownError (message : string) (err : option error) : error :=
  OperationError (Some (mkErrorStatus ErrorReasonUnknown None message err)).

(** [func (e *OperationError) Error() string]: [e.ErrStatus.Message]. *)
Definition OperationError_Error (ErrStatus : option ErrorStatus) : outcome string :=
  st ← deref ErrStatus; mret (Message st).

(** [func (e *OperationError) Status() *ErrorStatus] *)
Definition OperationError_Status (ErrStatus : option ErrorStatus) : option ErrorStatus :=
  ErrStatus.

End errors.

(** ** strconv, net (Go standard library, as far as the prober uses it) *)

Module strconv.
Import errors.

Definition ErrSyntax : string := "invalid syntax".
Definition ErrRange : string := "value out of range".

Definition isDigit (c : ascii) : bool :=
  let n := nat_of_ascii c in (48 <=? n)%nat && (n <=? 57)%nat.

(** What [ParseUint] makes of a run of bytes, read left to right: the value
    of the digits, a syntax error at the first byte that is no digit, or a
    range error at the first digit that takes the value beyond 64 bits,
    whichever comes first. *)
Inductive parsed : Type :=
| Digits (n : Z)
| BadSyntax
| OutOfRange.

Fixpoint digitsValue (acc : Z) (s : string) : parsed :=
  match s with
  | EmptyString => Digits acc
  | String c r =>
      if isDigit c
      then let n := (acc * 10 + (Z.of_nat (nat_of_ascii c) - 48))%Z in
           if (2 ^ 64 <=? n)%Z then OutOfRange else digitsValue n r
      else BadSyntax
  end.

(** [Atoi] on a 64-bit [int]: an optional sign, then at least one digit;
    a syntax error yields 0, a range error the nearest bound. *)
Definition Atoi (s : string) : Z * option error :=
  let syntaxError := Some (NumError "Atoi" s ErrSyntax) in
  let rangeError := Some (NumError "Atoi" s ErrRange) in
  match s with
  | EmptyString => (0%Z, syntaxError)
  | String c r =>
      let neg := Ascii.eqb c "-" in
      let body := if neg || Ascii.eqb c "+" then r else s in
      match body with
      | EmptyString => (0%Z, syntaxError)
      | _ =>
          match digitsValue 0 body with
          | BadSyntax => (0%Z, syntaxError)
          | OutOfRange =>
              if neg then ((- 2 ^ 63)%Z, rangeError)
              else ((2 ^ 63 - 1)%Z, rangeError)
          | Digits un =>
              if neg
              then if (2 ^ 63 <? un)%Z then ((- 2 ^ 63)%Z, rangeError)
                   else ((- un)%Z, None)
              else if (2 ^ 63 <=? un)%Z then ((2 ^ 63 - 1)%Z, rangeError)
                   else (un, None)
          end
      end
  end.

Definition Itoa (i : Z) : string := pretty i.

End strconv.

Module net.

Fixpoint hasColon (s : string) : bool :=
  match s with
  | EmptyString => false
  | String c r => Ascii.eqb c ":" || hasColon r
  end.

(** [JoinHostPort]: a host holding a colon (an IPv6 literal) is bracketed. *)
Definition JoinHostPort (host port : string) : string :=
  if hasColon host then "[" ++ host ++ "]:" ++ port
  else host ++ ":" ++ port.

End net.

(** ** k8s.io/apimachinery/pkg/util/intstr *)

Module intstr.

(** [type Type int], [Int = 0], [String = 1]. *)
Definition Int : Z := 0.
Definition String : Z := 1.

Record IntOrString : Type := mkIntOrString {
  Type_ : Z;
  IntVal : Z;          (* int32 *)
  StrVal : string
}.

(** [FromInt] stores [int32(val)]. *)
Definition FromInt (val : Z) : IntOrString := mkIntOrString Int (errors.int32 val) "".
Definition FromString (val : string) : IntOrString := mkIntOrString String 0 val.

Definition IntValue (p : IntOrString) : Z :=
  if (Type_ p =? String)%Z then fst (strconv.Atoi (StrVal p))
  else IntVal p.

End intstr.

(** ** k8s.io/api/core/v1: the fields the program reads *)

Module v1.

Record HTTPHeader : Type := mkHTTPHeader {
  HTTPHeader_Name : string;
  HTTPHeader_Value : string
}.

Record ExecAction : Type := mkExecAction { Command : list string }.

Record HTTPGetAction : Type := mkHTTPGetAction {
  HTTPGet_Path : string;
  HTTPGet_Port : intstr.IntOrString;
  HTTPGet_Host : string;
  HTTPGet_Scheme : string;
  HTTPHeaders : list HTTPHeader
}.

Record TCPSocketAction : Type := mkTCPSocketAction {
  TCPSocket_Port : intstr.IntOrString;
  TCPSocket_Host : string
}.

(** [Probe] embeds [Handler]; each action is a pointer, nil when absent. *)
Record Probe : Type := mkProbe {
  Exec : option ExecAction;
  HTTPGet : option HTTPGetAction;
  TCPSocket : option TCPSocketAction;
  TimeoutSeconds : Z   (* int32 *)
}.

Record ContainerPort : Type := mkContainerPort {
  ContainerPort_Name : string;
  ContainerPort_ContainerPort : Z   (* int32 *)
}.

Record EnvVar : Type := mkEnvVar { EnvVar_Name : string; EnvVar_Value : string }.

Record Container : Type := mkContainer {
  Container_Name : string;
  Ports : list ContainerPort;
  Env : list EnvVar
}.

Record ContainerStatus : Type := mkContainerStatus {
  ContainerStatus_Name : string;
  ContainerStatus_ContainerID : string
}.

(** [type PodPhase string] *)
Definition PodPending : string := "Pending".
Definition PodRunning : string := "Running".
Definition PodSucceeded : string := "Succeeded".
Definition PodFailed : string := "Failed".
Definition PodUnknown : string := "Unknown".

Record PodStatus : Type := mkPodStatus {
  Phase : string;
  PodStatus_Reason : string;
  PodIP : string;
  ContainerStatuses : list ContainerStatus
}.

(** [DeletionTimestamp] is a [*metav1.Time]; the time itself is kept as its
    Unix seconds. *)
Record Pod : Type := mkPod {
  Namespace : string;
  Pod_Name : string;
  UID : string;
  DeletionTimestamp : option Z;
  Status : PodStatus
}.

Definition EventTypeWarning : string := "Warning".

End v1.

(** ** k8s.io/kubernetes/pkg/probe and pkg/kubelet/prober/results *)

Module probe.
(** [type Result string] *)
Definition Result : Type := string.
Definition Success : Result := "success".
Definition Failure : Result := "failure".
Definition Unknown : Result := "unknown".
End probe.

Module results.
Inductive Result : Type := Unknown | Success | Failure.

#[global] Instance Result_eq_dec : EqDecision Result.
Proof. solve_decision. Defined.
End results.

(** ** k8s.io/kubernetes/pkg/kubelet/container *)

Module kubecontainer.

Record ContainerID : Type := mkContainerID {
  ContainerID_Type : string;
  ContainerID_ID : string
}.

(** [func (c *ContainerID) String() string] *)
Definition ContainerID_String (c : ContainerID) : string :=
  ContainerID_Type c ++ "://" ++ ContainerID_ID c.

End kubecontainer.

(** ** manager/prober/prober.go *)

Module prober.
Import errors v1 kubecontainer.

(** What one probe attempt returns: [(probe.Result, string, error)]. *)
Definition attempt : Type := (probe.Result * string * option error)%type.

(** [url.URL], the fields [url.Parse] fills from a path. *)
Record URL : Type := mkURL {
  Scheme : string;
  Opaque : string;
  Host : string;
  Path : string;
  RawPath : string;
  RawQuery : string;
  Fragment : string
}.

(** The command object [newExecInContainer] hands to the exec prober. *)
Record execInContainer : Type := newExecInContainer {
  exec_container : Container;
  exec_containerID : ContainerID;
  exec_cmd : list string;
  exec_timeout : Z
}.

(** Arguments of a [recorder.Eventf] call after the format string. *)
Inductive fmtArg : Type :=
| argString (s : string)
| argError (e : error).

(** Library functions the prober calls and that stay abstract:
    [url.Parse] ([None] when it reports an error), [strings.ToLower],
    [kubecontainer.ExpandContainerCommandOnlyStatic], and the [%+v]
    rendering of an [IntOrString]. *)
Class Libraries : Type := {
  url_Parse : string -> option URL;
  strings_ToLower : string -> string;
  ExpandContainerCommandOnlyStatic : list string -> list EnvVar -> list string;
  fmt_IntOrString : intstr.IntOrString -> string
}.

(** [type prober struct]: the probe primitives and the event plumbing.  [W]
    is the state of everything outside the program (network, containers,
    event sink); every primitive is a transition on it. *)
Record prober (W : Type) : Type := mkProber {
  exec_Probe : execInContainer -> W -> attempt * W;
  http_Probe : URL -> gmap string (list string) -> Z -> W -> attempt * W;
  tcp_Probe : string -> Z -> Z -> W -> attempt * W;
  refManager_GetRef : ContainerID -> option string;
  recorder_Eventf : string -> string -> string -> string -> list fmtArg -> W -> W
}.
Arguments exec_Probe {W}.
Arguments http_Probe {W}.
Arguments tcp_Probe {W}.
Arguments refManager_GetRef {W}.
Arguments recorder_Eventf {W}.

Definition ContainerUnhealthy : string := "Unhealthy".

(** [format.Pod]: name_namespace(uid). *)
Definition format_Pod (pod : Pod) : string :=
  Pod_Name pod ++ "_" ++ Namespace pod ++ "(" ++ UID pod ++ ")".

(** The body of the loop of [buildHeader]:
    [headers[header.Name] = append(headers[header.Name], header.Value)];
    reading an absent key gives the nil slice. *)
Definition appendHeader (headers : gmap string (list string)) (header : HTTPHeader)
    : gmap string (list string) :=
  <[HTTPHeader_Name header :=
      (default [] (headers !! HTTPHeader_Name header) ++ [HTTPHeader_Value header])%list]>
    headers.

Definition buildHeader (headerList : list HTTPHeader) : gmap string (list string) :=
  fold_left appendHeader headerList ∅.

Definition findPortByName (container : Container) (portName : string)
    : Z * option error :=
  match List.find (fun port => String.eqb (ContainerPort_Name port) portName)
                  (Ports container) with
  | Some port => (ContainerPort_ContainerPort port, None)
  | None => (0%Z, Some (errorString ("port " ++ portName ++ " not found")))
  end.

(** The range check that ends [extractPort]. *)
Definition checkPort (port : Z) : Z * option error :=
  if (0 <? port)%Z && (port <? 65536)%Z then (port, None)
  else (port, Some (errorString ("invalid port number: " ++ pretty port))).

Section WithLibraries.
Context `{Libraries}.

Definition extractPort (param : intstr.IntOrString) (container : Container)
    : Z * option error :=
  if (intstr.Type_ param =? intstr.Int)%Z then
    checkPort (intstr.IntValue param)
  else if (intstr.Type_ param =? intstr.String)%Z then
    match findPortByName container (intstr.StrVal param) with
    | (port, None) => checkPort port
    | (_, Some _) =>
        match strconv.Atoi (intstr.StrVal param) with
        | (port, None) => checkPort port
        | (port, Some err) => (port, Some err)
        end
    end
  else
    ((-1)%Z, Some (errorString ("IntOrString had no kind: " ++ fmt_IntOrString param))).

Definition formatURL (scheme host : string) (port : Z) (path : string) : URL :=
  let u := match url_Parse path with
           | Some u => u
           | None => mkURL "" "" "" path "" "" ""
           end in
  mkURL scheme (Opaque u) (net.JoinHostPort host (strconv.Itoa port))
        (Path u) (RawPath u) (RawQuery u) (Fragment u).

Section WithProber.
Context {W : Type} (pb : prober W).

Definition runProbe (p : Probe) (pod : Pod) (status : PodStatus)
    (container : Container) (containerID : ContainerID) (w : W) : attempt * W :=
  let timeout := (TimeoutSeconds p * 1000000000)%Z in
  match Exec p with
  | Some e =>
      let command := ExpandContainerCommandOnlyStatic (Command e) (Env container) in
      exec_Probe pb (newExecInContainer container containerID command timeout) w
  | None =>
  match HTTPGet p with
  | Some h =>
      let scheme := strings_ToLower (HTTPGet_Scheme h) in
      let host := if String.eqb (HTTPGet_Host h) "" then PodIP status
                  else HTTPGet_Host h in
      match extractPort (HTTPGet_Port h) container with
      | (_, Some err) => ((probe.Unknown, "", Some err), w)
      | (port, None) =>
          let path := HTTPGet_Path h in
          let url := formatURL scheme host port path in
          let headers := buildHeader (HTTPHeaders h) in
          http_Probe pb url headers timeout w
      end
  | None =>
  match TCPSocket p with
  | Some t =>
      match extractPort (TCPSocket_Port t) container with
      | (_, Some err) => ((probe.Unknown, "", Some err), w)
      | (port, None) =>
          let host := if String.eqb (TCPSocket_Host t) "" then PodIP status
                      else TCPSocket_Host t in
          tcp_Probe pb host port timeout w
      end
  | None =>
      ((probe.Unknown, "",
        Some (errorString ("Missing probe handler for " ++ format_Pod pod ++ ":"
                           ++ Container_Name container))), w)
  end end end.

(** The body of [for i := 0; i < 3; i++], with [n] iterations left and
    [last] holding [result, output, err] as the previous iteration left them. *)
Fixpoint retryLoop (n : nat) (last : attempt) (probeType : string) (p : Probe)
    (pod : Pod) (status : PodStatus) (container : Container)
    (containerID : ContainerID) (w : W) : attempt * W :=
  match n with
  | O => (last, w)
  | S n' =>
      match runProbe p pod status container containerID w with
      | ((result, output, None), w') => ((result, output, None), w')
      | ((result, output, Some err), w') =>
          retryLoop n' (result, output, Some err) probeType p pod status
                    container containerID w'
      end
  end.

Definition runProbeWithRetries (probeType : string) (p : Probe) (pod : Pod)
    (status : PodStatus) (container : Container) (containerID : ContainerID)
    (w : W) : attempt * W :=
  retryLoop 3 ("", "", None) probeType p pod status container containerID w.

(** [probe]: a nil [probeSpec] is [None].  Log lines are not modelled; the
    events sent through the recorder are. *)
Definition probe (probeType : string) (probeSpec : option Probe) (pod : Pod)
    (status : PodStatus) (container : Container) (containerID : ContainerID)
    (w : W) : (results.Result * option error) * W :=
  match probeSpec with
  | None => ((results.Success, None), w)
  | Some p =>
      let '((result, output, err), w1) :=
        runProbeWithRetries probeType p pod status container containerID w in
      if bool_decide (err ≠ None) || negb (String.eqb result probe.Success) then
        let w2 :=
          match refManager_GetRef pb containerID, err with
          | Some ref, Some e =>
              recorder_Eventf pb ref EventTypeWarning ContainerUnhealthy
                "%s probe errored: %v" [argString probeType; argError e] w1
          | Some ref, None =>
              recorder_Eventf pb ref EventTypeWarning ContainerUnhealthy
                "%s probe failed: %s" [argString probeType; argString output] w1
          | None, _ => w1
          end in
        ((results.Failure, err), w2)
      else ((results.Success, None), w1)
  end.

End WithProber.
End WithLibraries.

(** *** Observing primitive invocations

    [traced pb] behaves as [pb] and appends every primitive invocation to a
    log carried next to the outside state. *)

Inductive ProbeCall : Type :=
| ExecCall (cmd : execInContainer)
| HTTPCall (url : URL) (headers : gmap string (list string)) (timeout : Z)
| TCPCall (host : string) (port : Z) (timeout : Z).

(** Handing a call to the primitive it names. *)
Definition perform {W : Type} (pb : prober W) (c : ProbeCall) (w : W) : attempt * W :=
  match c with
  | ExecCall cmd => exec_Probe pb cmd w
  | HTTPCall url headers timeout => http_Probe pb url headers timeout w
  | TCPCall host port timeout => tcp_Probe pb host port timeout w
  end.

Definition logged {W : Type} (c : ProbeCall) (f : W -> attempt * W)
    (wl : W * list ProbeCall) : attempt * (W * list ProbeCall) :=
  let '(a, w') := f (fst wl) in (a, (w', (snd wl ++ [c])%list)).

Definition traced {W : Type} (pb : prober W) : prober (W * list ProbeCall) :=
  mkProber (W * list ProbeCall)
    (fun cmd => logged (ExecCall cmd) (exec_Probe pb cmd))
    (fun url headers timeout =>
       logged (HTTPCall url headers timeout) (http_Probe pb url headers timeout))
    (fun host port timeout =>
       logged (TCPCall host port timeout) (tcp_Probe pb host port timeout))
    (refManager_GetRef pb)
    (fun ref eventtype reason messageFmt args wl =>
       (recorder_Eventf pb ref eventtype reason messageFmt args (fst wl), snd wl)).

End prober.

(** ** manager/prober/prober.go (second file) and manager/liveness.go *)

Module manager.
Import v1 kubecontainer.

(** *** Readiness tracker

    Go maps are references: [ns, ok := m.readiness[k]] copies a reference,
    [make] allocates a new object, and a write through a reference is seen
    by every holder of it.  The heap keeps the map objects of the three
    nesting levels; a nil map is the reference [None]. *)

Definition loc : Type := positive.

Record heap : Type := mkHeap {
  containerMaps : gmap loc (gmap string bool);          (* map[string]bool *)
  podMaps : gmap loc (gmap string (option loc));        (* map[string]map[string]bool *)
  namespaceMaps : gmap loc (gmap string (option loc))   (* map[string]map[string]map[string]bool *)
}.

Definition emptyHeap : heap := mkHeap ∅ ∅ ∅.

(** [ResourceManager.GetPods()] lists the pods currently known. *)
Definition ResourceManager : Type := list Pod.
Definition GetPods (rm : ResourceManager) : list Pod := rm.

Record readinessManager : Type := mkReadinessManager {
  rm : ResourceManager;
  readiness : option loc
}.

(** [&readinessManager{rm: rm}]: the [readiness] field is left nil. *)
Definition NewReadinessManager (rm : ResourceManager) : readinessManager :=
  mkReadinessManager rm None.

(** [v, ok := m[k]] on a map of maps; a nil map has no keys. *)
Definition index (objs : gmap loc (gmap string (option loc))) (m : option loc)
    (k : string) : option loc * bool :=
  match m with
  | None => (None, false)
  | Some l =>
      match default ∅ (objs !! l) !! k with
      | Some v => (v, true)
      | None => (None, false)
      end
  end.

(** [make(map[string]map[string]bool)] *)
Definition makePodMap (h : heap) : loc * heap :=
  let l := fresh (dom (podMaps h)) in
  (l, mkHeap (containerMaps h) (<[l := ∅]> (podMaps h)) (namespaceMaps h)).

(** [make(map[string]bool)] *)
Definition makeContainerMap (h : heap) : loc * heap :=
  let l := fresh (dom (containerMaps h)) in
  (l, mkHeap (<[l := ∅]> (containerMaps h)) (podMaps h) (namespaceMaps h)).

(** [pod[name] = ready]; writing into a nil map panics. *)
Definition assign (h : heap) (pod : option loc) (name : string) (ready : bool)
    : outcome heap :=
  match pod with
  | None => Panic
  | Some l =>
      Ret (mkHeap (<[l := <[name := ready]> (default ∅ (containerMaps h !! l))]>
                     (containerMaps h))
                  (podMaps h) (namespaceMaps h))
  end.

(** The first loop of [SetContainerReadiness] has no [break]: the last pod
    with the UID stays in [targetPod]. *)
Definition findTargetPod (pods : list Pod) (podUID : string) : option Pod :=
  fold_left (fun targetPod pod =>
               if String.eqb (UID pod) podUID then Some pod else targetPod)
            pods None.

(** The manager's fields are never assigned, so the call changes the heap
    only. *)
Definition SetContainerReadiness (m : readinessManager) (podUID : string)
    (containerID : ContainerID) (ready : bool) (h : heap) : outcome heap :=
  match findTargetPod (GetPods (rm m)) podUID with
  | None => Ret h
  | Some targetPod =>
      let cid := ContainerID_String containerID in
      match List.find (fun c => String.eqb (ContainerStatus_ContainerID c) cid)
                      (ContainerStatuses (Status targetPod)) with
      | None => Ret h
      | Some c =>
          let '(ns, ok) := index (namespaceMaps h) (readiness m) (Namespace targetPod) in
          let '(ns, h1) := if ok then (ns, h)
                           else let '(l, h') := makePodMap h in (Some l, h') in
          let '(pod, ok) := index (podMaps h1) ns (Pod_Name targetPod) in
          let '(pod, h2) := if ok then (pod, h1)
                            else let '(l, h') := makeContainerMap h1 in (Some l, h') in
          assign h2 pod (ContainerStatus_Name c) ready
      end
  end.

(** Returns the reference of the pod's map, or nil. *)
Definition GetPodContainersReadiness (m : readinessManager)
    (namespace pod : string) (h : heap) : option loc :=
  match index (namespaceMaps h) (readiness m) namespace with
  | (ns, true) =>
      match index (podMaps h) ns pod with
      | (pod, true) => pod
      | (_, false) => None
      end
  | (_, false) => None
  end.

(** [r[name]] on the [map[string]bool] returned: absent keys, and every key
    of a nil map, read as [false]. *)
Definition readReadiness (h : heap) (r : option loc) (name : string) : bool :=
  match r with
  | None => false
  | Some l => default false (default ∅ (containerMaps h !! l) !! name)
  end.

(** The returned map as a value: [None] for nil. *)
Definition readinessMapOf (h : heap) (r : option loc) : option (gmap string bool) :=
  match r with
  | None => None
  | Some l => Some (default ∅ (containerMaps h !! l))
  end.

(** [GetPodStatus]: the status of the first pod with the UID (the loop
    returns from inside), or the zero [PodStatus] and [false]. *)
Definition GetPodStatus (m : readinessManager) (uid : string) : PodStatus * bool :=
  match List.find (fun pod => String.eqb (UID pod) uid) (GetPods (rm m)) with
  | Some pod => (Status pod, true)
  | None => (mkPodStatus "" "" "" [], false)
  end.

(** *** Liveness dispatcher *)

Record LivenessUpdate : Type := mkLivenessUpdate {
  namespace : string;
  pod : string
}.

(** [results.Update] *)
Record Update : Type := mkUpdate {
  ContainerID_ : ContainerID;
  Result : results.Result;
  PodUID : string
}.

(** Capacity of the [updates] channel made by [NewLivenessManager]. *)
Definition updatesCapacity : nat := 20.

Section Liveness.

(** The sentinel status reason; its declaration is not among the sources. *)
Variable podStatusReasonProviderFailed : string.

Definition terminated (pod : Pod) : bool :=
  String.eqb (Phase (Status pod)) PodSucceeded
  || String.eqb (Phase (Status pod)) PodFailed
  || String.eqb (PodStatus_Reason (Status pod)) podStatusReasonProviderFailed
  || bool_decide (DeletionTimestamp pod ≠ None).

(** [for pod := range m.rm.GetPods()]: [sent] are the values already sent
    on [m.updates] by this call; a terminated match returns at once.  The
    [uid] the pods are compared with is [update.PodUID], the one the log
    line of the loop prints. *)
Fixpoint rangePods (pods : list Pod) (uid : string) (sent : list LivenessUpdate)
    : list LivenessUpdate :=
  match pods with
  | [] => sent
  | pod :: rest =>
      if String.eqb (UID pod) uid then
        if terminated pod then sent
        else rangePods rest uid
               (sent ++ [mkLivenessUpdate (Namespace pod) (Pod_Name pod)])%list
      else rangePods rest uid sent
  end.

(** The values the call sends on [m.updates], in order. *)
Definition updatePodLiveness (rm : ResourceManager) (update : Update)
    : list LivenessUpdate :=
  if bool_decide (Result update = results.Failure)
  then rangePods (GetPods rm) (PodUID update) []
  else [].

End Liveness.

End manager.

(** ** The specification's wording, as definitions to compare the code with *)

Module spec.
Import errors v1.

(** An error exposing the status [st]. *)
Definition withStatus (st : ErrorStatus) : option error :=
  Some (OperationError (Some st)).

(** Delay suggestion as the specification words it: the reason
    [ServiceUnavailable] with details present gives the details' seconds
    whatever their sign; otherwise details with positive seconds give them;
    everything else gives [(0, false)]. *)
Inductive SuggestedDelay (st : ErrorStatus) : Z * bool -> Prop :=
| delay_unavailable d :
    Reason st = ErrorReasonServiceUnavailable ->
    Details st = Some d ->
    SuggestedDelay st (RetryAfterSeconds d, true)
| delay_positive d :
    Reason st ≠ ErrorReasonServiceUnavailable ->
    Details st = Some d ->
    (0 < RetryAfterSeconds d)%Z ->
    SuggestedDelay st (RetryAfterSeconds d, true)
| delay_not_positive d :
    Reason st ≠ ErrorReasonServiceUnavailable ->
    Details st = Some d ->
    (RetryAfterSeconds d <= 0)%Z ->
    SuggestedDelay st (0%Z, false)
| delay_no_details :
    Details st = None ->
    SuggestedDelay st (0%Z, false).

(** Port resolution as the specification words it: a literal integer is
    itself; a name is looked up among the container's declared ports and,
    when no port has that name, parsed as an integer.  [None] when nothing
    resolves. *)
Definition resolvePort (param : intstr.IntOrString) (container : Container)
    : option Z :=
  if decide (intstr.Type_ param = intstr.Int) then Some (intstr.IntVal param)
  else if decide (intstr.Type_ param = intstr.String) then
    match filter (fun port => ContainerPort_Name port = intstr.StrVal param)
                 (Ports container) with
    | port :: _ => Some (ContainerPort_ContainerPort port)
    | [] =>
        match strconv.Atoi (intstr.StrVal param) with
        | (n, None) => Some n
        | (_, Some _) => None
        end
    end
  else None.

Definition validPort (port : Z) : Prop := (0 < port < 65536)%Z.

(** The port reference of an HTTPGet or TCPSocket probe (dispatch takes the
    first populated variant in the order Exec, HTTPGet, TCPSocket). *)
Definition portReference (p : Probe) : option intstr.IntOrString :=
  match Exec p, HTTPGet p, TCPSocket p with
  | None, Some h, _ => Some (HTTPGet_Port h)
  | None, None, Some t => Some (TCPSocket_Port t)
  | _, _, _ => None
  end.

(** The primitive invocation the dispatch rule describes for such a probe
    once its port is resolved: the host falls back to the workload IP, the
    scheme is lower-cased, the path becomes a URL, the header list a
    multi-valued map, and the timeout is the declared seconds. *)
Definition probeCall `{prober.Libraries} (p : Probe) (status : PodStatus) (port : Z)
    : option prober.ProbeCall :=
  let timeout := (TimeoutSeconds p * 1000000000)%Z in
  match HTTPGet p, TCPSocket p with
  | Some h, _ =>
      let host := if decide (HTTPGet_Host h = "") then PodIP status else HTTPGet_Host h in
      Some (prober.HTTPCall
              (prober.formatURL (prober.strings_ToLower (HTTPGet_Scheme h)) host port
                                (HTTPGet_Path h))
              (prober.buildHeader (HTTPHeaders h)) timeout)
  | None, Some t =>
      let host := if decide (TCPSocket_Host t = "") then PodIP status else TCPSocket_Host t in
      Some (prober.TCPCall host port timeout)
  | None, None => None
  end.

#[global] Instance validPort_dec port : Decision (validPort port).
Proof. unfold validPort. apply _. Defined.

(** The values given for [name] in a header list, in input order. *)
Definition valuesFor (name : string) (headerList : list HTTPHeader) : list string :=
  HTTPHeader_Value <$> filter (fun header => HTTPHeader_Name header = name) headerList.

(** The workload is terminal: phase [Succeeded] or [Failed], or the status
    reason is the provider-failed sentinel, or a deletion marker is set. *)
Definition terminal (sentinel : string) (pod : Pod) : Prop :=
  Phase (Status pod) = PodSucceeded
  ∨ Phase (Status pod) = PodFailed
  ∨ PodStatus_Reason (Status pod) = sentinel
  ∨ DeletionTimestamp pod ≠ None.

(** The lookup by unique id finds the workload [pod], and only it. *)
Definition resolvesTo (pods : list Pod) (uid : string) (pod : Pod) : Prop :=
  filter (fun q => UID q = uid) pods = [pod].

End spec.

(** ** Concrete inputs used by the examples *)

Module scenario.
Import errors v1 kubecontainer.

Definition lowerAscii (c : ascii) : ascii :=
  let n := nat_of_ascii c in
  if (65 <=? n)%nat && (n <=? 90)%nat then ascii_of_nat (n + 32) else c.

Fixpoint lower (s : string) : string :=
  match s with
  | EmptyString => EmptyString
  | String c r => String (lowerAscii c) (lower r)
  end.

(** Stand-ins for the library functions: a parser that takes every path as
    it is, ASCII lower-casing, no expansion of commands. *)
Definition libs : prober.Libraries := {|
  prober.url_Parse := fun path => Some (prober.mkURL "" "" "" path "" "" "");
  prober.strings_ToLower := lower;
  prober.ExpandContainerCommandOnlyStatic := fun command _ => command;
  prober.fmt_IntOrString := fun p => pretty (intstr.IntVal p)
|}.

(** A prober over a world that counts the primitive calls made so far.  The
    HTTP primitive fails with a transport error on its first two calls and
    answers "failure" afterwards; the TCP primitive always succeeds. *)
Definition flaky : prober.prober nat := {|
  prober.exec_Probe := fun _ n => ((probe.Success, "ok", None), S n);
  prober.http_Probe := fun _ _ _ n =>
    if (n <? 2)%nat
    then ((probe.Failure, "", Some (errorString "connection refused")), S n)
    else ((probe.Failure, "HTTP probe failed with statuscode: 500", None), S n);
  prober.tcp_Probe := fun _ _ _ n => ((probe.Success, "", None), S n);
  prober.refManager_GetRef := fun _ => None;
  prober.recorder_Eventf := fun _ _ _ _ _ n => n
|}.

Definition app : Container :=
  mkContainer "app" [mkContainerPort "http" 8080; mkContainerPort "zero" 0] [].

Definition c1 : ContainerID := mkContainerID "docker" "c1".

Definition web : Pod :=
  mkPod "default" "web" "u1" None
        (mkPodStatus PodRunning "" "10.0.0.7" [mkContainerStatus "app" "docker://c1"]).

Definition httpProbe (port : intstr.IntOrString) : Probe :=
  mkProbe None
    (Some (mkHTTPGetAction "/healthz" port "" "HTTP"
             [mkHTTPHeader "Accept" "text/plain"; mkHTTPHeader "Accept" "text/html"]))
    None 1.

Definition tcpProbe (port : intstr.IntOrString) : Probe :=
  mkProbe None None (Some (mkTCPSocketAction port "")) 1.

(** A probe declaration with none of the three actions. *)
Definition emptyProbe : Probe := mkProbe None None None 1.

Definition failureOf (uid : string) : manager.Update :=
  manager.mkUpdate c1 results.Failure uid.

End scenario.

(** ** Further concrete inputs *)

Module fixtures.
Import errors v1 kubecontainer.

(** A prober all of whose primitives report a transport error. *)
Definition refusing : prober.prober nat := {|
  prober.exec_Probe := fun _ n =>
    ((probe.Unknown, "", Some (errorString "exec: container not running")), S n);
  prober.http_Probe := fun _ _ _ n =>
    ((probe.Failure, "", Some (errorString "connection refused")), S n);
  prober.tcp_Probe := fun _ _ _ n =>
    ((probe.Failure, "", Some (errorString "connection refused")), S n);
  prober.refManager_GetRef := fun _ => None;
  prober.recorder_Eventf := fun _ _ _ _ _ n => n
|}.

(** A probe with an exec action next to an HTTP action whose port is out of
    range. *)
Definition execAndHTTP : Probe :=
  mkProbe (Some (mkExecAction ["cat"; "/tmp/healthy"]))
          (Some (mkHTTPGetAction "/" (intstr.FromInt 0) "" "HTTP" []))
          None 5.

(** A manager whose [readiness] map already reaches a map for default/web,
    in which the container sidecar is ready. *)
Definition registered : manager.readinessManager :=
  manager.mkReadinessManager [scenario.web] (Some 1%positive).

Definition registeredHeap : manager.heap :=
  manager.mkHeap {[ 3%positive := {[ "sidecar" := true ]} ]}
                 {[ 2%positive := {[ "web" := Some 3%positive ]} ]}
                 {[ 1%positive := {[ "default" := Some 2%positive ]} ]}.

Definition job : Pod :=
  mkPod "batch" "job" "u2" None (mkPodStatus PodFailed "" "10.0.0.8" []).


(** A heap in which the entry of default/web is a nil map. *)
Definition nilEntryHeap : manager.heap :=
  manager.mkHeap ∅
                 {[ 2%positive := {[ "web" := None ]} ]}
                 {[ 1%positive := {[ "default" := Some 2%positive ]} ]}.

End fixtures.

(** ** The invocations an attempt is bound to make *)

Module observe.
Import v1 kubecontainer prober.

(** A prober without an outside world: every primitive answers at once. *)
Definition silent : prober unit :=
  mkProber unit
    (fun _ w => (("", "", None), w))
    (fun _ _ _ w => (("", "", None), w))
    (fun _ _ _ w => (("", "", None), w))
    (fun _ => None)
    (fun _ _ _ _ _ w => w).

(** The log one attempt of [runProbe] leaves when run on [silent]. *)
Definition plannedCalls `{Libraries} (p : Probe) (pod : Pod) (status : PodStatus)
    (container : Container) (containerID : ContainerID) : list ProbeCall :=
  snd (snd (runProbe (traced silent) p pod status container containerID (tt, []))).

End observe.

(** * Properties *)

(** ** Error taxonomy *)

Module ErrorsFacts.
Import errors spec.

Lemma reasonForError_withStatus st :
  reasonForError (withStatus st) = Ret (Reason st).
Proof. reflexivity. Qed.

Lemma reasonForError_no_Interface err :
  asInterface err = None -> reasonForError err = Ret ErrorReasonUnknown.
Proof. unfold reasonForError. intros ->. reflexivity. Qed.

(** What the switch of [IsRetryable] computes: only the last of the three
    listed reasons reaches [return true]. *)
Lemma IsRetryable_withStatus st :
  IsRetryable (withStatus st)
  = Ret (String.eqb (Reason st) ErrorReasonInternalServerError).
Proof.
  unfold IsRetryable. rewrite reasonForError_withStatus. simpl.
  destruct (String.eqb_spec (Reason st) ErrorReasonTooManyRequests) as [->|_];
    [reflexivity|].
  destruct (String.eqb_spec (Reason st) ErrorReasonServiceUnavailable) as [->|_];
    [reflexivity|].
  destruct (String.eqb (Reason st) ErrorReasonInternalServerError); reflexivity.
Qed.

(** C2, at the inputs where the code departs from it: errors built by
    [NewTooManyRequests] and [NewServiceUnavailable] have the reasons
    TooManyRequests and ServiceUnavailable, and [IsRetryable] answers
    [false] for both; only the InternalServerError error is retryable. *)
Theorem IsRetryable_TooManyRequests_ServiceUnavailable_false :
  reasonForError (Some (NewTooManyRequests "busy" 1 None)) = Ret ErrorReasonTooManyRequests
  ∧ IsRetryable (Some (NewTooManyRequests "busy" 1 None)) = Ret false
  ∧ reasonForError (Some (NewServiceUnavailable "down" 1 None)) = Ret ErrorReasonServiceUnavailable
  ∧ IsRetryable (Some (NewServiceUnavailable "down" 1 None)) = Ret false
  ∧ IsRetryable (Some (NewInternalServerError "oops" 1 None)) = Ret true.
Proof. repeat split; reflexivity. Qed.

(** The relation of the specification is total: every status has a
    suggested delay. *)
Lemma SuggestedDelay_total st : exists r, spec.SuggestedDelay st r.
Proof.
  destruct (Details st) as [d|] eqn:Hd.
  - destruct (decide (Reason st = ErrorReasonServiceUnavailable)) as [Hr|Hr].
    + eexists. by eapply spec.delay_unavailable.
    + destruct (Z_lt_le_dec 0 (RetryAfterSeconds d)).
      * eexists. by eapply spec.delay_positive.
      * eexists. by eapply spec.delay_not_positive.
  - eexists. by apply spec.delay_no_details.
Qed.

(** C3: for every error exposing a status, [SuggestsClientDelay] returns
    the delay the specification describes: the details' seconds (of any
    sign) for ServiceUnavailable with details, the details' seconds when
    they are positive for any other reason, and (0, false) otherwise. *)
Theorem SuggestsClientDelay_spec st r :
  spec.SuggestedDelay st r ->
  SuggestsClientDelay (withStatus st) = Ret r.
Proof.
  unfold SuggestsClientDelay. simpl.
  intros [d Hr Hd | d Hr Hd Hpos | d Hr Hd Hle | Hd]; rewrite Hd.
  - rewrite Hr. reflexivity.
  - apply String.eqb_neq in Hr. rewrite Hr.
    apply Z.ltb_lt in Hpos. rewrite Hpos. reflexivity.
  - apply String.eqb_neq in Hr. rewrite Hr.
    apply Z.ltb_ge in Hle. rewrite Hle. reflexivity.
  - reflexivity.
Qed.

(** A ServiceUnavailable error with a negative hint still suggests it. *)
Lemma SuggestsClientDelay_spec_witness :
  SuggestsClientDelay (Some (NewServiceUnavailable "down" (-3) None))
  = Ret ((-3)%Z, true).
Proof.
  apply (SuggestsClientDelay_spec
           (mkErrorStatus ErrorReasonServiceUnavailable
                          (Some (mkErrorDetails (-3))) "down" None)).
  apply (spec.delay_unavailable _ (mkErrorDetails (-3))); reflexivity.
Defined.

(** The three examples of the specification. *)
Lemma SuggestsClientDelay_examples :
  SuggestsClientDelay (Some (NewServiceUnavailable "down" 5 None)) = Ret (5%Z, true)
  ∧ SuggestsClientDelay
      (withStatus (mkErrorStatus ErrorReasonBadRequest (Some (mkErrorDetails 5)) "bad" None))
    = Ret (5%Z, true)
  ∧ SuggestsClientDelay (Some (NewBadRequest "bad" None)) = Ret (0%Z, false).
Proof. repeat split; reflexivity. Qed.

(** C9: an error without the [Status] accessor (nil included) is not
    "not found", not retryable and suggests no delay, and none of the three
    functions panics on it. *)
Theorem no_Interface_safe_defaults err :
  asInterface err = None ->
  IsNotFound err = Ret false
  ∧ IsRetryable err = Ret false
  ∧ SuggestsClientDelay err = Ret (0%Z, false).
Proof.
  intros Hno. unfold IsNotFound, IsRetryable, SuggestsClientDelay.
  rewrite (reasonForError_no_Interface _ Hno), Hno. repeat split.
Qed.

Lemma no_Interface_safe_defaults_witness :
  IsNotFound (Some (errorString "boom")) = Ret false
  ∧ IsRetryable (Some (errorString "boom")) = Ret false
  ∧ SuggestsClientDelay (Some (errorString "boom")) = Ret (0%Z, false).
Proof. apply (no_Interface_safe_defaults (Some (errorString "boom"))). reflexivity. Defined.

(** The hypothesis of C9 covers exactly nil and the errors of the two types
    without a [Status] method. *)
Lemma asInterface_None err :
  asInterface err = None
  <-> err = None ∨ (exists msg, err = Some (errorString msg))
      ∨ (exists f n e, err = Some (NumError f n e)).
Proof.
  split.
  - destruct err as [[msg|f n e|st]|]; simpl; intros Hno; try discriminate; eauto 6.
  - intros [->|[[msg ->]|(f & n & e & ->)]]; reflexivity.
Qed.

(** With a status, [IsNotFound] compares the reason. *)
Lemma IsNotFound_withStatus st :
  IsNotFound (withStatus st) = Ret (bool_decide (Reason st = ErrorReasonNotFound)).
Proof.
  unfold IsNotFound. rewrite reasonForError_withStatus. simpl. f_equal.
  destruct (String.eqb_spec (Reason st) ErrorReasonNotFound).
  - by rewrite bool_decide_eq_true_2.
  - by rewrite bool_decide_eq_false_2.
Qed.

End ErrorsFacts.

(** ** Probe engine *)

Module ProberFacts.
Import errors v1 kubecontainer prober.

(** *** Header map *)

(** Running the loop from any map [acc]: the values of [name] are appended,
    in input order, to those [acc] already held. *)
Lemma fold_appendHeader_lookup (headerList : list HTTPHeader) acc name :
  fold_left appendHeader headerList acc !! name
  = match spec.valuesFor name headerList with
    | [] => acc !! name
    | vs => Some (default [] (acc !! name) ++ vs)%list
    end.
Proof.
  revert acc. induction headerList as [|header rest IH]; intros acc; [reflexivity|].
  cbn [fold_left]. rewrite IH. unfold spec.valuesFor.
  rewrite filter_cons. unfold appendHeader.
  destruct (decide (HTTPHeader_Name header = name)) as [<-|Hne].
  - rewrite !lookup_insert_eq. cbn [fmap list_fmap default].
    match goal with |- context [match ?l with _ => _ end] => destruct l as [|v vs] end;
      cbn.
    + reflexivity.
    + by rewrite <- app_assoc.
  - by rewrite !lookup_insert_ne.
Qed.

(** C8: for every header list and every name, the header map holds under
    that name exactly the values the list gives for it, in input order; a
    name the list never mentions has no entry. *)
Theorem buildHeader_lookup (headerList : list HTTPHeader) (name : string) :
  buildHeader headerList !! name
  = match spec.valuesFor name headerList with
    | [] => None
    | vs => Some vs
    end.
Proof.
  unfold buildHeader.
  rewrite (fold_appendHeader_lookup headerList ∅ name), lookup_empty.
  destruct (spec.valuesFor name headerList); reflexivity.
Qed.

(** A repeated name keeps both values; the later one does not overwrite. *)
Lemma buildHeader_repeated_name :
  buildHeader [mkHTTPHeader "Accept" "text/plain"; mkHTTPHeader "Host" "web";
               mkHTTPHeader "Accept" "text/html"] !! "Accept"
  = Some ["text/plain"; "text/html"].
Proof. vm_compute. reflexivity. Qed.

(** *** One attempt under observation *)

Section Attempts.
Context `{Libraries} {W : Type} (pb : prober W).
Variables (p : Probe) (pod : Pod) (status : PodStatus) (container : Container)
          (containerID : ContainerID).

(** An attempt of the traced prober is the attempt of the prober itself,
    and it appends at most one call to the log. *)
Lemma runProbe_traced (w : W) (log : list ProbeCall) :
  exists calls : list ProbeCall,
    length calls <= 1
    ∧ runProbe (traced pb) p pod status container containerID (w, log)
      = (fst (runProbe pb p pod status container containerID w),
         (snd (runProbe pb p pod status container containerID w), (log ++ calls)%list)).
Proof.
  unfold runProbe.
  destruct (Exec p) as [e|].
  { eexists [_]. split; [simpl; lia|]. cbn. unfold logged. cbn.
    by destruct (exec_Probe pb _ w). }
  destruct (HTTPGet p) as [h|].
  { destruct (extractPort (HTTPGet_Port h) container) as [port [err|]].
    - exists []. split; [simpl; lia|]. by rewrite app_nil_r.
    - eexists [_]. split; [simpl; lia|]. cbn. unfold logged. cbn.
      by destruct (http_Probe pb _ _ _ w). }
  destruct (TCPSocket p) as [t|].
  { destruct (extractPort (TCPSocket_Port t) container) as [port [err|]].
    - exists []. split; [simpl; lia|]. by rewrite app_nil_r.
    - eexists [_]. split; [simpl; lia|]. cbn. unfold logged. cbn.
      by destruct (tcp_Probe pb _ _ _ w). }
  exists []. split; [simpl; lia|]. by rewrite app_nil_r.
Qed.

(** The loop of [runProbeWithRetries] with [n] iterations left adds at most
    [n] calls to the log. *)
Lemma retryLoop_traced_log n last probeType (w : W) (log : list ProbeCall) :
  length (snd (snd (retryLoop (traced pb) n last probeType p pod status container
                              containerID (w, log))))
  <= length log + n.
Proof.
  revert last w log. induction n as [|n IH]; intros last w log; cbn [retryLoop].
  - simpl. lia.
  - destruct (runProbe_traced w log) as (calls & Hlen & ->).
    destruct (runProbe pb p pod status container containerID w)
      as [[[result output] [err|]] w']; cbn [fst snd].
    + etrans; [apply IH|]. rewrite length_app. lia.
    + rewrite length_app. lia.
Qed.

(** C5: the retry loop is decided by the first three attempts, each started
    from the state its predecessor left.  The first attempt whose error is
    nil is returned as it is, together with the state right after it (no
    later attempt ran); when all three report an error the third attempt is
    returned.  Observed through the log, the primitives are invoked at most
    three times. *)
Theorem runProbeWithRetries_spec (probeType : string) (w : W) :
  let run := runProbe pb p pod status container containerID in
  let first := run w in
  let second := run (snd first) in
  let third := run (snd second) in
  runProbeWithRetries pb probeType p pod status container containerID w
  = (if decide (snd (fst first) = None) then first
     else if decide (snd (fst second) = None) then second
     else third)
  ∧ length (snd (snd (runProbeWithRetries (traced pb) probeType p pod status
                        container containerID (w, []))))
    <= 3.
Proof.
  cbv zeta. split.
  - unfold runProbeWithRetries. cbn [retryLoop].
    destruct (runProbe pb p pod status container containerID w)
      as [[[r1 o1] [e1|]] w1]; cbn [fst snd]; [|by rewrite decide_True].
    rewrite decide_False by done.
    destruct (runProbe pb p pod status container containerID w1)
      as [[[r2 o2] [e2|]] w2]; cbn [fst snd]; [|by rewrite decide_True].
    rewrite decide_False by done.
    by destruct (runProbe pb p pod status container containerID w2)
      as [[[r3 o3] [e3|]] w3].
  - apply (retryLoop_traced_log 3 ("", "", None) probeType w []).
Qed.

End Attempts.

(** A clean failure on the first attempt is returned without a second one;
    against the flaky HTTP endpoint the third attempt answers. *)
Lemma runProbeWithRetries_examples :
  let run p w := @runProbeWithRetries scenario.libs _ scenario.flaky "Liveness" p
                   scenario.web (Status scenario.web) scenario.app scenario.c1 w in
  run (scenario.httpProbe (intstr.FromInt 8080)) 2%nat
  = ((probe.Failure, "HTTP probe failed with statuscode: 500", None), 3%nat)
  ∧ run (scenario.httpProbe (intstr.FromInt 8080)) 0%nat
    = ((probe.Failure, "HTTP probe failed with statuscode: 500", None), 3%nat)
  ∧ run (scenario.httpProbe (intstr.FromInt 0)) 0%nat
    = ((probe.Unknown, "", Some (errorString "invalid port number: 0")), 0%nat).
Proof. cbv zeta. repeat split; vm_compute; reflexivity. Qed.

(** *** Port resolution *)

Section Ports.
Context `{Libraries}.

Lemma checkPort_valid port : spec.validPort port -> checkPort port = (port, None).
Proof.
  unfold spec.validPort, checkPort. intros [Hlo Hhi].
  apply Z.ltb_lt in Hlo, Hhi. by rewrite Hlo, Hhi.
Qed.

Lemma checkPort_invalid port :
  ¬ spec.validPort port -> exists err, checkPort port = (port, Some err).
Proof.
  unfold spec.validPort, checkPort. intros Hbad.
  destruct (Z.ltb_spec 0 port), (Z.ltb_spec port 65536); cbn; eauto; lia.
Qed.

(** The scan of [findPortByName] stops at the first port with the name. *)
Lemma findPortByName_filter container portName :
  findPortByName container portName
  = match filter (fun port => ContainerPort_Name port = portName) (Ports container) with
    | port :: _ => (ContainerPort_ContainerPort port, None)
    | [] => (0%Z, Some (errorString ("port " ++ portName ++ " not found")))
    end.
Proof.
  unfold findPortByName.
  induction (Ports container) as [|port ports IH]; [reflexivity|].
  cbn [List.find]. rewrite filter_cons.
  destruct (String.eqb_spec (ContainerPort_Name port) portName) as [Heq|Hne].
  - by rewrite decide_True.
  - by rewrite decide_False.
Qed.

(** [extractPort] against the resolution the specification describes: a
    resolved port in range is returned with a nil error, anything else with
    an error. *)
Lemma extractPort_resolvePort param container :
  match spec.resolvePort param container with
  | Some port =>
      if decide (spec.validPort port) then extractPort param container = (port, None)
      else exists err, extractPort param container = (port, Some err)
  | None => exists port err, extractPort param container = (port, Some err)
  end.
Proof.
  unfold spec.resolvePort, extractPort, intstr.IntValue.
  assert (Hcheck : forall port,
             if decide (spec.validPort port) then checkPort port = (port, None)
             else exists err, checkPort port = (port, Some err)).
  { intros port. destruct (decide (spec.validPort port)).
    - by apply checkPort_valid.
    - by apply checkPort_invalid. }
  destruct (decide (intstr.Type_ param = intstr.Int)) as [Hint|Hint].
  { rewrite Hint. cbn. apply Hcheck. }
  apply Z.eqb_neq in Hint. rewrite Hint.
  destruct (decide (intstr.Type_ param = intstr.String)) as [Hstr|Hstr].
  - rewrite Hstr. cbn [Z.eqb intstr.String Pos.eqb].
    rewrite findPortByName_filter.
    destruct (filter _ (Ports container)) as [|port ?]; [|apply Hcheck].
    destruct (strconv.Atoi (intstr.StrVal param)) as [n [err|]]; [eauto|apply Hcheck].
  - apply Z.eqb_neq in Hstr. rewrite Hstr. eauto.
Qed.

Context {W : Type} (pb : prober W).

(** C6: for an HTTPGet or TCPSocket probe whose port reference resolves (a
    literal integer as itself; a name through the container's declared
    ports, else parsed as an integer) to a port p with 0 < p < 65536, the
    attempt is exactly one invocation of the HTTP or TCP primitive with that
    port; for every other reference the attempt is Unknown with a non-nil
    error, and the outside state and the log of invocations are unchanged. *)
Theorem runProbe_port_resolution (p : Probe) (ref : intstr.IntOrString) (pod : Pod)
    (status : PodStatus) (container : Container) (containerID : ContainerID)
    (w : W) (log : list ProbeCall) :
  spec.portReference p = Some ref ->
  let attempt := runProbe (traced pb) p pod status container containerID (w, log) in
  let refused := exists err, attempt = ((probe.Unknown, "", Some err), (w, log)) in
  match spec.resolvePort ref container with
  | Some port =>
      if decide (spec.validPort port)
      then exists call, spec.probeCall p status port = Some call
                        ∧ attempt = logged call (perform pb call) (w, log)
      else refused
  | None => refused
  end.
Proof.
  unfold spec.portReference, spec.probeCall, runProbe. intros Href. cbv zeta.
  destruct (Exec p) as [e|]; [by destruct (HTTPGet p), (TCPSocket p)|].
  destruct (HTTPGet p) as [h|].
  - injection Href as <-.
    pose proof (extractPort_resolvePort (HTTPGet_Port h) container) as Hport.
    destruct (spec.resolvePort (HTTPGet_Port h) container) as [port|].
    + destruct (decide (spec.validPort port)).
      * rewrite Hport. eexists. split; [reflexivity|].
        cbn [perform traced http_Probe].
        by destruct (String.eqb_spec (HTTPGet_Host h) "");
          [rewrite decide_True|rewrite decide_False].
      * destruct Hport as [err ->]. eauto.
    + destruct Hport as (port & err & ->). eauto.
  - destruct (TCPSocket p) as [t|]; [|discriminate].
    injection Href as <-.
    pose proof (extractPort_resolvePort (TCPSocket_Port t) container) as Hport.
    destruct (spec.resolvePort (TCPSocket_Port t) container) as [port|].
    + destruct (decide (spec.validPort port)).
      * rewrite Hport. eexists. split; [reflexivity|].
        cbn [perform traced tcp_Probe].
        by destruct (String.eqb_spec (TCPSocket_Host t) "");
          [rewrite decide_True|rewrite decide_False].
      * destruct Hport as [err ->]. eauto.
    + destruct Hport as (port & err & ->). eauto.
Qed.

End Ports.

(** A named port is looked up among the declared ports and probed; a
    literal port 0 is refused before any primitive runs. *)
Lemma runProbe_port_resolution_witness :
  (exists call,
      @spec.probeCall scenario.libs (scenario.httpProbe (intstr.FromString "http"))
                      (Status scenario.web) 8080 = Some call
      ∧ @runProbe scenario.libs _ (traced scenario.flaky)
          (scenario.httpProbe (intstr.FromString "http")) scenario.web
          (Status scenario.web) scenario.app scenario.c1 (0%nat, [])
        = logged call (perform scenario.flaky call) (0%nat, []))
  ∧ (exists err,
        @runProbe scenario.libs _ (traced scenario.flaky)
          (scenario.tcpProbe (intstr.FromInt 0)) scenario.web
          (Status scenario.web) scenario.app scenario.c1 (0%nat, [])
        = ((probe.Unknown, "", Some err), (0%nat, []))).
Proof.
  split.
  - exact (@runProbe_port_resolution scenario.libs _ scenario.flaky
             (scenario.httpProbe (intstr.FromString "http")) (intstr.FromString "http")
             scenario.web (Status scenario.web) scenario.app scenario.c1 0%nat []
             eq_refl).
  - exact (@runProbe_port_resolution scenario.libs _ scenario.flaky
             (scenario.tcpProbe (intstr.FromInt 0)) (intstr.FromInt 0)
             scenario.web (Status scenario.web) scenario.app scenario.c1 0%nat []
             eq_refl).
Defined.

(** Resolution on the scenario's container: by name, by a numeral kept as a
    string, and the failures. *)
Lemma extractPort_examples :
  let extract param := fst (@extractPort scenario.libs param scenario.app) in
  let failed param := is_Some (snd (@extractPort scenario.libs param scenario.app)) in
  extract (intstr.FromString "http") = 8080%Z
  ∧ extract (intstr.FromString "9090") = 9090%Z
  ∧ extract (intstr.FromInt 65535) = 65535%Z
  ∧ failed (intstr.FromInt 65536)
  ∧ failed (intstr.FromString "zero")
  ∧ failed (intstr.FromString "metrics")
  ∧ failed (intstr.mkIntOrString 2 80 "80").
Proof. cbv zeta. repeat split; vm_compute; eauto. Qed.

(** *** Probes without a handler, and the wrapper *)

Section Wrapper.
Context `{Libraries} {W : Type} (pb : prober W).
Variables (probeType : string) (pod : Pod) (status : PodStatus)
          (container : Container) (containerID : ContainerID).

(** The events of the wrapper leave the log of invocations alone. *)
Lemma probe_traced_log (probeSpec : option Probe) (w : W) (log : list ProbeCall) :
  snd (snd (probe (traced pb) probeType probeSpec pod status container containerID (w, log)))
  = match probeSpec with
    | Some p => snd (snd (runProbeWithRetries (traced pb) probeType p pod status
                            container containerID (w, log)))
    | None => log
    end.
Proof.
  unfold probe. destruct probeSpec as [p|]; [|reflexivity].
  destruct (runProbeWithRetries _ _ _ _ _ _ _ _) as [[[result output] err] [w1 log1]].
  destruct (_ || _); [|reflexivity].
  cbn [traced refManager_GetRef recorder_Eventf].
  by destruct (refManager_GetRef pb containerID), err.
Qed.

(** C7, as the code has it: a probe declaration with none of Exec, HTTPGet
    and TCPSocket makes every attempt, and so the retry cycle, return Unknown
    with the error "Missing probe handler for <pod>:<container>", and the
    wrapper return Failure with that error; no primitive is invoked.  Success
    with a nil error and no invocation is what the wrapper returns for an
    absent (nil) declaration. *)
Theorem probe_without_handler (p : Probe) (w : W) (log : list ProbeCall) :
  Exec p = None -> HTTPGet p = None -> TCPSocket p = None ->
  let err := errorString ("Missing probe handler for " ++ format_Pod pod ++ ":"
                          ++ Container_Name container) in
  (runProbe (traced pb) p pod status container containerID (w, log)
   = ((probe.Unknown, "", Some err), (w, log))
   ∧ runProbeWithRetries (traced pb) probeType p pod status container containerID (w, log)
     = ((probe.Unknown, "", Some err), (w, log))
   ∧ fst (probe (traced pb) probeType (Some p) pod status container containerID (w, log))
     = (results.Failure, Some err)
   ∧ snd (snd (probe (traced pb) probeType (Some p) pod status container containerID
                     (w, log)))
     = log)
  ∧ probe (traced pb) probeType None pod status container containerID (w, log)
    = ((results.Success, None), (w, log)).
Proof.
  intros Hexec Hhttp Htcp err. split; [|reflexivity].
  assert (Hrun : runProbe (traced pb) p pod status container containerID (w, log)
                 = ((probe.Unknown, "", Some err), (w, log))).
  { unfold runProbe. by rewrite Hexec, Hhttp, Htcp. }
  assert (Hcycle : runProbeWithRetries (traced pb) probeType p pod status container
                     containerID (w, log)
                   = ((probe.Unknown, "", Some err), (w, log))).
  { unfold runProbeWithRetries. cbn [retryLoop]. by rewrite !Hrun. }
  split; [exact Hrun|]. split; [exact Hcycle|]. split.
  - unfold probe. rewrite Hcycle. cbn.
    by destruct (refManager_GetRef pb containerID).
  - by rewrite probe_traced_log, Hcycle.
Qed.

(** C10: for a declared probe the wrapper answers Success exactly when the
    retry cycle ended with a nil error and the result Success, and then with
    a nil error; in every other case it answers Failure together with the
    cycle's error.  It never answers Unknown. *)
Theorem probe_collapses_to_Failure (p : Probe) (w : W) :
  let cycle := fst (runProbeWithRetries pb probeType p pod status container containerID w) in
  let answer := fst (probe pb probeType (Some p) pod status container containerID w) in
  (fst answer = results.Success <-> snd cycle = None ∧ fst (fst cycle) = probe.Success)
  ∧ (fst answer = results.Success -> snd answer = None)
  ∧ (fst answer ≠ results.Success -> answer = (results.Failure, snd cycle))
  ∧ fst answer ≠ results.Unknown.
Proof.
  cbv zeta. unfold probe.
  destruct (runProbeWithRetries pb probeType p pod status container containerID w)
    as [[[result output] err] w1]. cbn [fst snd].
  destruct err as [e|].
  - rewrite bool_decide_eq_true_2 by done. cbn.
    repeat split; try discriminate; try reflexivity.
    intros [Hnil _]. discriminate Hnil.
  - rewrite bool_decide_eq_false_2 by (intros Hne; by apply Hne). cbn [orb].
    destruct (String.eqb_spec result probe.Success) as [->|Hne]; cbn.
    + repeat split; try discriminate; try reflexivity. intros Hno. by destruct Hno.
    + repeat split; try discriminate; try reflexivity. intros [_ Heq]. by destruct Hne.
Qed.

End Wrapper.

Lemma probe_without_handler_witness :
  let err := errorString "Missing probe handler for web_default(u1):app" in
  (@runProbe scenario.libs _ (traced scenario.flaky) scenario.emptyProbe scenario.web
     (Status scenario.web) scenario.app scenario.c1 (0%nat, [])
   = ((probe.Unknown, "", Some err), (0%nat, []))
   ∧ @runProbeWithRetries scenario.libs _ (traced scenario.flaky) "Readiness"
       scenario.emptyProbe scenario.web (Status scenario.web) scenario.app scenario.c1
       (0%nat, [])
     = ((probe.Unknown, "", Some err), (0%nat, []))
   ∧ fst (@probe scenario.libs _ (traced scenario.flaky) "Readiness"
            (Some scenario.emptyProbe) scenario.web (Status scenario.web) scenario.app
            scenario.c1 (0%nat, []))
     = (results.Failure, Some err)
   ∧ snd (snd (@probe scenario.libs _ (traced scenario.flaky) "Readiness"
                 (Some scenario.emptyProbe) scenario.web (Status scenario.web)
                 scenario.app scenario.c1 (0%nat, [])))
     = [])
  ∧ @probe scenario.libs _ (traced scenario.flaky) "Readiness" None scenario.web
      (Status scenario.web) scenario.app scenario.c1 (0%nat, [])
    = ((results.Success, None), (0%nat, [])).
Proof.
  exact (@probe_without_handler scenario.libs _ scenario.flaky "Readiness" scenario.web
           (Status scenario.web) scenario.app scenario.c1 scenario.emptyProbe 0%nat []
           eq_refl eq_refl eq_refl).
Defined.

(** C7 as stated fails on the declaration without any action: the attempt
    is Unknown with an error, not Success, and the wrapper reports Failure
    with that error. *)
Lemma probe_without_handler_not_Success :
  Exec scenario.emptyProbe = None
  ∧ HTTPGet scenario.emptyProbe = None
  ∧ TCPSocket scenario.emptyProbe = None
  ∧ fst (@runProbe scenario.libs _ scenario.flaky scenario.emptyProbe scenario.web
           (Status scenario.web) scenario.app scenario.c1 0%nat)
    = (probe.Unknown, "",
       Some (errorString "Missing probe handler for web_default(u1):app"))
  ∧ fst (@probe scenario.libs _ scenario.flaky "Readiness" (Some scenario.emptyProbe)
           scenario.web (Status scenario.web) scenario.app scenario.c1 0%nat)
    = (results.Failure,
       Some (errorString "Missing probe handler for web_default(u1):app"))
  ∧ probe.Unknown ≠ probe.Success
  ∧ results.Failure ≠ results.Success.
Proof. repeat split; try (vm_compute; reflexivity); discriminate. Qed.

End ProberFacts.

(** ** Readiness tracker and liveness dispatcher *)

Module ManagerFacts.
Import v1 kubecontainer manager.

(** *** Readiness *)




(** The manager made by [NewReadinessManager] has a nil [readiness] map, and
    no call assigns the field: every lookup returns nil. *)
Lemma GetPodContainersReadiness_new rm namespace pod h :
  GetPodContainersReadiness (NewReadinessManager rm) namespace pod h = None.
Proof. reflexivity. Qed.

(** On the manager made by [NewReadinessManager], a resolvable call does not
    panic; it writes into maps it has just made. *)
Lemma SetContainerReadiness_new_returns rm podUID containerID ready h :
  exists h', SetContainerReadiness (NewReadinessManager rm) podUID containerID ready h = Ret h'.
Proof.
  unfold SetContainerReadiness.
  destruct (findTargetPod _ _) as [targetPod|]; [|eauto].
  destruct (List.find _ _) as [c|]; [|eauto].
  cbn [NewReadinessManager readiness index makePodMap podMaps].
  rewrite lookup_insert_eq. cbn. eauto.
Qed.

(** C1, at the scenario of the specification: on a new manager that knows
    the pod default/web with uid u1 and its container app (id docker://c1),
    [SetContainerReadiness] with [true] returns normally and the following
    [GetPodContainersReadiness] returns the nil map, in which app reads as
    [false]; the map the call wrote [true] into is not reachable from the
    manager. *)
Theorem SetContainerReadiness_true_not_recorded :
  let m := NewReadinessManager [scenario.web] in
  exists h',
    SetContainerReadiness m "u1" scenario.c1 true emptyHeap = Ret h'
    ∧ GetPodContainersReadiness m "default" "web" h' = None
    ∧ readinessMapOf h' (GetPodContainersReadiness m "default" "web" h') = None
    ∧ readReadiness h' (GetPodContainersReadiness m "default" "web" h') "app" = false
    ∧ readReadiness h' (Some 1%positive) "app" = true.
Proof.
  cbv zeta. eexists. split; [vm_compute; reflexivity|].
  repeat split; vm_compute; reflexivity.
Qed.

(** The third part of C1 holds: a call whose uid resolves to no pod, or
    whose container id is not among the pod's statuses, returns the heap it
    was given. *)
Lemma SetContainerReadiness_unresolved m podUID containerID ready h :
  (findTargetPod (GetPods (rm m)) podUID = None
   ∨ exists targetPod,
       findTargetPod (GetPods (rm m)) podUID = Some targetPod
       ∧ Forall (fun c => ContainerStatus_ContainerID c ≠ ContainerID_String containerID)
                (ContainerStatuses (Status targetPod))) ->
  SetContainerReadiness m podUID containerID ready h = Ret h.
Proof.
  unfold SetContainerReadiness. intros [-> | (targetPod & -> & Hnone)]; [reflexivity|].
  assert (List.find (fun c => String.eqb (ContainerStatus_ContainerID c)
                                         (ContainerID_String containerID))
                    (ContainerStatuses (Status targetPod)) = None) as ->; [|reflexivity].
  induction Hnone as [|c cs Hc _ IH]; [reflexivity|].
  cbn [List.find]. apply String.eqb_neq in Hc. by rewrite Hc.
Qed.

(** Where the manager already reaches a map for the pod, the write goes
    through the shared reference and the lookup sees it. *)
Lemma SetContainerReadiness_registered m podUID containerID ready h targetPod c
    l0 l1 l2 (nsMap podMap : gmap string (option loc)) :
  findTargetPod (GetPods (rm m)) podUID = Some targetPod ->
  List.find (fun c => String.eqb (ContainerStatus_ContainerID c)
                                 (ContainerID_String containerID))
            (ContainerStatuses (Status targetPod)) = Some c ->
  readiness m = Some l0 ->
  namespaceMaps h !! l0 = Some nsMap ->
  nsMap !! Namespace targetPod = Some (Some l1) ->
  podMaps h !! l1 = Some podMap ->
  podMap !! Pod_Name targetPod = Some (Some l2) ->
  exists h',
    SetContainerReadiness m podUID containerID ready h = Ret h'
    ∧ GetPodContainersReadiness m (Namespace targetPod) (Pod_Name targetPod) h' = Some l2
    ∧ readReadiness h' (Some l2) (ContainerStatus_Name c) = ready.
Proof.
  intros Hpod Hc Hm Hns Hl1 Hpm Hl2.
  assert (Hindex : forall objs l (mp : gmap string (option loc)) k v,
             objs !! l = Some mp -> mp !! k = Some v ->
             index objs (Some l) k = (v, true)).
  { intros objs l mp k v Hobj Hk. unfold index. by rewrite Hobj; cbn; rewrite Hk. }
  unfold SetContainerReadiness, GetPodContainersReadiness, readReadiness.
  rewrite Hpod, Hc, Hm.
  rewrite (Hindex _ _ _ _ _ Hns Hl1), (Hindex _ _ _ _ _ Hpm Hl2).
  eexists. split; [reflexivity|]. cbn [namespaceMaps podMaps containerMaps].
  rewrite (Hindex _ _ _ _ _ Hns Hl1), (Hindex _ _ _ _ _ Hpm Hl2).
  split; [reflexivity|].
  rewrite lookup_insert_eq. simpl. by rewrite lookup_insert_eq.
Qed.

(** *** Liveness *)

Section LivenessFacts.
Variable sentinel : string.

(** The test of the dispatcher is the specification's terminal state. *)
Lemma terminated_terminal pod :
  terminated sentinel pod = true <-> spec.terminal sentinel pod.
Proof.
  unfold terminated, spec.terminal.
  rewrite !orb_true_iff, !String.eqb_eq, bool_decide_eq_true. tauto.
Qed.

(** Pods with another UID are passed over. *)
Lemma rangePods_no_match pods uid sent :
  Forall (fun pod => UID pod ≠ uid) pods ->
  rangePods sentinel pods uid sent = sent.
Proof.
  intros Hall. revert sent. induction Hall as [|pod pods Hne _ IH]; intros sent.
  - reflexivity.
  - cbn [rangePods]. apply String.eqb_neq in Hne. by rewrite Hne.
Qed.

(** The loop sees only the pods with the UID it looks for. *)
Lemma rangePods_filter pods uid sent :
  rangePods sentinel pods uid sent
  = rangePods sentinel (filter (fun q => UID q = uid) pods) uid sent.
Proof.
  revert sent. induction pods as [|q rest IH]; intros sent; [reflexivity|].
  rewrite filter_cons. cbn [rangePods].
  destruct (String.eqb_spec (UID q) uid) as [Heq|Hne].
  - rewrite decide_True by done. cbn [rangePods].
    apply String.eqb_eq in Heq. rewrite Heq.
    destruct (terminated sentinel q); [reflexivity|apply IH].
  - rewrite decide_False by done. apply IH.
Qed.

Lemma filter_UID_none (pods : list Pod) uid :
  Forall (fun q => UID q ≠ uid) pods -> filter (fun q => UID q = uid) pods = [].
Proof.
  induction 1 as [|q rest Hne _ IH]; [reflexivity|].
  rewrite filter_cons. by rewrite decide_False.
Qed.

(** Among pods with pairwise distinct UIDs, a listed pod is the one its UID
    resolves to. *)
Lemma unique_UID_resolvesTo pods pod :
  NoDup (UID <$> pods) -> pod ∈ pods -> spec.resolvesTo pods (UID pod) pod.
Proof.
  unfold spec.resolvesTo. intros Hnodup Hin.
  induction pods as [|q rest IH]; [by apply elem_of_nil in Hin|].
  rewrite fmap_cons in Hnodup. apply NoDup_cons in Hnodup as [Hq Hrest].
  rewrite filter_cons.
  destruct (decide (UID q = UID pod)) as [Heq|Hne].
  - assert (pod = q) as ->.
    { apply elem_of_cons in Hin as [->|Hin]; [reflexivity|].
      exfalso. apply Hq. rewrite Heq. by apply list_elem_of_fmap_2. }
    f_equal. apply filter_UID_none, Forall_forall. intros r Hr Huid.
    apply Hq. rewrite <- Huid. by apply list_elem_of_fmap_2.
  - apply elem_of_cons in Hin as [->|Hin]; [done|]. by apply IH.
Qed.

(** C4: let a Failure update carry a UID that resolves to the pod [pod].
    If [pod] is not terminal the dispatcher sends exactly one update,
    holding the pod's namespace and name; if [pod] is terminal (phase
    Succeeded or Failed, status reason equal to the sentinel, or a deletion
    timestamp) it sends none. *)
Theorem updatePodLiveness_Failure (rm : ResourceManager) (update : Update) (pod : Pod) :
  spec.resolvesTo (GetPods rm) (PodUID update) pod ->
  Result update = results.Failure ->
  (¬ spec.terminal sentinel pod ->
   updatePodLiveness sentinel rm update
   = [mkLivenessUpdate (Namespace pod) (Pod_Name pod)])
  ∧ (spec.terminal sentinel pod -> updatePodLiveness sentinel rm update = []).
Proof.
  intros Hres Hfail. unfold updatePodLiveness.
  rewrite bool_decide_eq_true_2 by done.
  rewrite rangePods_filter, Hres. cbn [rangePods].
  assert (UID pod = PodUID update) as Huid.
  { assert (pod ∈ filter (fun q => UID q = PodUID update) (GetPods rm)) as Hin
      by (rewrite Hres; constructor).
    by apply list_elem_of_filter in Hin as [Huid _]. }
  apply String.eqb_eq in Huid. rewrite Huid.
  rewrite <- terminated_terminal.
  destruct (terminated sentinel pod); split; intros Hterm; try reflexivity.
  - by destruct Hterm.
  - discriminate.
Qed.

(** An update that is not a Failure sends nothing, and neither does one
    whose UID no pod has. *)
Lemma updatePodLiveness_silent (rm : ResourceManager) (update : Update) :
  Result update ≠ results.Failure ∨ Forall (fun pod => UID pod ≠ PodUID update) (GetPods rm) ->
  updatePodLiveness sentinel rm update = [].
Proof.
  unfold updatePodLiveness. intros [Hres|Hnone].
  - by rewrite bool_decide_eq_false_2.
  - case_bool_decide; [|reflexivity]. by apply rangePods_no_match.
Qed.

End LivenessFacts.

Lemma updatePodLiveness_Failure_witness :
  updatePodLiveness "ProviderFailed" [scenario.web] (scenario.failureOf "u1")
  = [mkLivenessUpdate "default" "web"].
Proof.
  refine (proj1 (updatePodLiveness_Failure "ProviderFailed" [scenario.web]
                   (scenario.failureOf "u1") scenario.web eq_refl eq_refl) _).
  intros [Hphase|[Hphase|[Hreason|Hdeleted]]];
    [discriminate Hphase|discriminate Hphase|discriminate Hreason|].
  apply Hdeleted. reflexivity.
Defined.

(** On the scenario's running pod one update is sent; once the pod carries
    a deletion timestamp, or has failed, none is. *)
Lemma updatePodLiveness_examples :
  let deleted := mkPod "default" "web" "u1" (Some 1700000000%Z) (Status scenario.web) in
  let failed := mkPod "default" "job" "u2" None (mkPodStatus PodFailed "" "" []) in
  updatePodLiveness "ProviderFailed" [scenario.web; failed] (scenario.failureOf "u1")
  = [mkLivenessUpdate "default" "web"]
  ∧ updatePodLiveness "ProviderFailed" [deleted; failed] (scenario.failureOf "u1") = []
  ∧ updatePodLiveness "ProviderFailed" [scenario.web; failed] (scenario.failureOf "u2") = [].
Proof. cbv zeta. repeat split; vm_compute; reflexivity. Qed.

(** The loop goes on after a send: were two running pods to share a UID,
    each would get an update. *)
Lemma updatePodLiveness_shared_uid :
  let twin := mkPod "default" "web-copy" "u1" None (Status scenario.web) in
  updatePodLiveness "ProviderFailed" [scenario.web; twin] (scenario.failureOf "u1")
  = [mkLivenessUpdate "default" "web"; mkLivenessUpdate "default" "web-copy"].
Proof. vm_compute. reflexivity. Qed.

End ManagerFacts.

(** ** Error taxonomy, continued *)

Module ErrorsMore.
Import errors spec.

(** X1: [IsNotFound] answers [true] exactly for the errors that expose a
    status whose reason is NotFound; nil, errors without a status and every
    other reason never do. *)
Theorem IsNotFound_true_iff (err : option error) :
  IsNotFound err = Ret true
  <-> exists st, err = withStatus st ∧ Reason st = ErrorReasonNotFound.
Proof.
  split.
  - destruct err as [[msg|f n e|[st|]]|]; try discriminate.
    unfold IsNotFound. cbn. intros [= Heq]. apply String.eqb_eq in Heq. eauto.
  - intros (st & -> & Hr). unfold IsNotFound. cbn. by rewrite Hr.
Qed.

(** X2: outside the reasons TooManyRequests and ServiceUnavailable,
    [IsRetryable] is [true] for InternalServerError and [false] for every
    other reason, the seven constants or any other string. *)
Theorem IsRetryable_other_reasons (st : ErrorStatus) :
  Reason st ≠ ErrorReasonTooManyRequests ->
  Reason st ≠ ErrorReasonServiceUnavailable ->
  IsRetryable (withStatus st)
  = Ret (bool_decide (Reason st = ErrorReasonInternalServerError)).
Proof.
  intros Htmr Hsu. unfold IsRetryable. cbn.
  apply String.eqb_neq in Htmr, Hsu. rewrite Htmr, Hsu.
  destruct (String.eqb_spec (Reason st) ErrorReasonInternalServerError).
  - by rewrite bool_decide_eq_true_2.
  - by rewrite bool_decide_eq_false_2.
Qed.

Lemma IsRetryable_other_reasons_witness :
  IsRetryable (Some (NewBadRequest "malformed" None)) = Ret false
  ∧ IsRetryable (Some (NewInternalServerError "oops" 2 None)) = Ret true.
Proof.
  split.
  - apply (IsRetryable_other_reasons
             (mkErrorStatus ErrorReasonBadRequest None "malformed" None));
      discriminate.
  - apply (IsRetryable_other_reasons
             (mkErrorStatus ErrorReasonInternalServerError
                            (Some (mkErrorDetails 2)) "oops" None));
      discriminate.
Defined.

(** X3: on an [*OperationError] whose [ErrStatus] is nil all four
    classification functions panic; on an error that exposes a non-nil
    status, whatever its reason and details, none of them does. *)
Theorem classification_nil_status_panics (st : ErrorStatus) :
  (reasonForError (Some (OperationError None)) = Panic
   ∧ IsNotFound (Some (OperationError None)) = Panic
   ∧ IsRetryable (Some (OperationError None)) = Panic
   ∧ SuggestsClientDelay (Some (OperationError None)) = Panic)
  ∧ (reasonForError (withStatus st) ≠ Panic
     ∧ IsNotFound (withStatus st) ≠ Panic
     ∧ IsRetryable (withStatus st) ≠ Panic
     ∧ SuggestsClientDelay (withStatus st) ≠ Panic).
Proof.
  split; [repeat split|]. repeat split; try discriminate.
  - unfold IsRetryable. cbn. by repeat case_match.
  - unfold SuggestsClientDelay. cbn. by repeat case_match.
Qed.

(** X4: what the constructors' errors suggest.  [NewServiceUnavailable]
    always suggests a delay, of the seconds truncated to 32 bits;
    [NewTooManyRequests] and [NewInternalServerError] suggest it when the
    truncated seconds are positive; the four constructors without details
    never suggest one. *)
Theorem SuggestsClientDelay_constructors (message : string) (n : Z) (e : option error) :
  let hint := if (0 <? int32 n)%Z then (int32 n, true) else (0%Z, false) in
  SuggestsClientDelay (Some (NewServiceUnavailable message n e)) = Ret (int32 n, true)
  ∧ SuggestsClientDelay (Some (NewTooManyRequests message n e)) = Ret hint
  ∧ SuggestsClientDelay (Some (NewInternalServerError message n e)) = Ret hint
  ∧ SuggestsClientDelay (Some (NewNotFound message e)) = Ret (0%Z, false)
  ∧ SuggestsClientDelay (Some (NewUnauthorized message e)) = Ret (0%Z, false)
  ∧ SuggestsClientDelay (Some (NewBadRequest message e)) = Ret (0%Z, false)
  ∧ SuggestsClientDelay (Some (NewUnknownError message e)) = Ret (0%Z, false).
Proof.
  cbv zeta. unfold SuggestsClientDelay. cbn -[int32 Z.ltb].
  repeat split; by destruct (0 <? int32 n)%Z.
Qed.

(** X5: [int32] lands in the 32-bit range, keeps the integers of that
    range, and forgets multiples of 2^32: the retry hint a constructor
    stores is the given one only when it fits. *)
Theorem int32_range (n : Z) :
  (- 2 ^ 31 <= int32 n < 2 ^ 31)%Z
  ∧ ((- 2 ^ 31 <= n < 2 ^ 31)%Z -> int32 n = n)
  ∧ int32 (n + 2 ^ 32) = int32 n
  ∧ int32 (int32 n) = int32 n.
Proof.
  unfold int32.
  assert (Hmod : (0 <= (n + 2 ^ 31) mod 2 ^ 32 < 2 ^ 32)%Z) by (apply Z.mod_pos_bound; lia).
  repeat split; try lia.
  - intros Hn. rewrite Z.mod_small by lia. lia.
  - replace (n + 2 ^ 32 + 2 ^ 31)%Z with (n + 2 ^ 31 + 1 * 2 ^ 32)%Z by lia.
    by rewrite Z.mod_add by lia.
  - replace ((n + 2 ^ 31) mod 2 ^ 32 - 2 ^ 31 + 2 ^ 31)%Z
      with ((n + 2 ^ 31) mod 2 ^ 32)%Z by lia.
    by rewrite Z.mod_mod by lia.
Qed.

(** X6: a suggested delay always comes from the details of a status, and
    seconds that are not positive are suggested for ServiceUnavailable only;
    without a suggestion the seconds are 0. *)
Theorem SuggestsClientDelay_sound (err : option error) (seconds : Z) (ok : bool) :
  SuggestsClientDelay err = Ret (seconds, ok) ->
  if ok
  then exists st d,
      err = withStatus st ∧ Details st = Some d ∧ seconds = RetryAfterSeconds d
      ∧ (Reason st = ErrorReasonServiceUnavailable ∨ (0 < seconds)%Z)
  else seconds = 0%Z.
Proof.
  unfold SuggestsClientDelay.
  destruct err as [[msg|f n e|[st|]]|]; cbn; try (intros [= <- <-]; reflexivity);
    try discriminate.
  destruct (Details st) as [d|] eqn:Hd; [|intros [= <- <-]; reflexivity].
  destruct (String.eqb_spec (Reason st) ErrorReasonServiceUnavailable) as [Hr|Hr].
  - intros [= <- <-]. exists st, d. auto.
  - destruct (Z.ltb_spec 0 (RetryAfterSeconds d)); intros [= <- <-]; [|reflexivity].
    exists st, d. auto.
Qed.

Lemma SuggestsClientDelay_sound_witness :
  exists st d,
    Some (NewTooManyRequests "busy" 7 None) = withStatus st
    ∧ Details st = Some d ∧ 7%Z = RetryAfterSeconds d
    ∧ (Reason st = ErrorReasonServiceUnavailable ∨ (0 < 7)%Z).
Proof.
  exact (SuggestsClientDelay_sound (Some (NewTooManyRequests "busy" 7 None)) 7 true
           eq_refl).
Defined.

(** X26: every constructor yields an error with a non-nil status that
    carries the reason of its name, the message and the cause it was given;
    [Error()] returns the message. *)
Theorem constructors_round_trip (message : string) (n : Z) (cause : option error) :
  Forall (fun '(e, reason) =>
            exists st,
              e = OperationError (Some st)
              ∧ OperationError_Status (Some st) = Some st
              ∧ Reason st = reason ∧ Message st = message ∧ OrigErr st = cause
              ∧ OperationError_Error (Some st) = Ret message
              ∧ reasonForError (Some e) = Ret reason)
         [(NewNotFound message cause, ErrorReasonNotFound);
          (NewUnauthorized message cause, ErrorReasonUnauthorized);
          (NewBadRequest message cause, ErrorReasonBadRequest);
          (NewTooManyRequests message n cause, ErrorReasonTooManyRequests);
          (NewInternalServerError message n cause, ErrorReasonInternalServerError);
          (NewServiceUnavailable message n cause, ErrorReasonServiceUnavailable);
          (NewUnknownError message cause, ErrorReasonUnknown)].
Proof. repeat constructor; eexists; repeat split; reflexivity. Qed.

End ErrorsMore.

(** ** Probe engine, continued *)

Module ProberMore.
Import errors v1 kubecontainer prober.

(** *** Ports *)

(** X7: [findPortByName] returns a nil error exactly when the container
    declares a port with the name; when it does not, the port returned is 0. *)
Theorem findPortByName_found_iff (container : Container) (portName : string) :
  (snd (findPortByName container portName) = None
   <-> exists port, port ∈ Ports container ∧ ContainerPort_Name port = portName)
  ∧ (snd (findPortByName container portName) ≠ None ->
     fst (findPortByName container portName) = 0%Z).
Proof.
  rewrite ProberFacts.findPortByName_filter.
  destruct (filter _ (Ports container)) as [|port rest] eqn:Hfilter; cbn.
  - split; [|done]. split; [discriminate|].
    intros (port & Hin & Hname).
    assert (port ∈ filter (fun q => ContainerPort_Name q = portName) (Ports container)) as Hf
      by (by apply list_elem_of_filter).
    rewrite Hfilter in Hf. by apply elem_of_nil in Hf.
  - split; [|done]. split; [|done]. intros _. exists port.
    assert (port ∈ filter (fun q => ContainerPort_Name q = portName) (Ports container)) as Hf
      by (rewrite Hfilter; constructor).
    apply list_elem_of_filter in Hf as [Hname Hin]. auto.
Qed.

(** X8: among several ports with the name, the one declared first is
    taken. *)
Theorem findPortByName_first (container : Container) (portName : string)
    (before after : list ContainerPort) (port : ContainerPort) :
  Ports container = (before ++ port :: after)%list ->
  Forall (fun q => ContainerPort_Name q ≠ portName) before ->
  ContainerPort_Name port = portName ->
  findPortByName container portName = (ContainerPort_ContainerPort port, None).
Proof.
  intros Hports Hbefore Hname. unfold findPortByName. rewrite Hports. clear Hports.
  induction Hbefore as [|q before Hq _ IH]; cbn [app List.find].
  - apply String.eqb_eq in Hname. by rewrite Hname.
  - apply String.eqb_neq in Hq. rewrite Hq. apply IH.
Qed.

Lemma findPortByName_first_witness :
  findPortByName
    (mkContainer "app" [mkContainerPort "metrics" 9100; mkContainerPort "http" 8080;
                        mkContainerPort "http" 8081] [])
    "http"
  = (8080%Z, None).
Proof.
  apply (findPortByName_first
           (mkContainer "app" [mkContainerPort "metrics" 9100; mkContainerPort "http" 8080;
                               mkContainerPort "http" 8081] [])
           "http" [mkContainerPort "metrics" 9100] [mkContainerPort "http" 8081]
           (mkContainerPort "http" 8080)).
  - reflexivity.
  - constructor; [discriminate|constructor].
  - reflexivity.
Defined.

Section PortsMore.
Context `{Libraries}.

(** X9: a port that [extractPort] returns with a nil error lies strictly
    between 0 and 65536, whatever the kind of the reference. *)
Theorem extractPort_success_range (param : intstr.IntOrString) (container : Container)
    (port : Z) :
  extractPort param container = (port, None) -> (0 < port < 65536)%Z.
Proof.
  intros Hok.
  pose proof (ProberFacts.extractPort_resolvePort param container) as Hspec.
  rewrite Hok in Hspec.
  destruct (spec.resolvePort param container) as [resolved|].
  - destruct (decide (spec.validPort resolved)) as [Hvalid|_].
    + by injection Hspec as <-.
    + by destruct Hspec as [err [=]].
  - by destruct Hspec as (p' & err & [=]).
Qed.

End PortsMore.

Lemma extractPort_success_range_witness : (0 < 8080 < 65536)%Z.
Proof.
  exact (@extractPort_success_range scenario.libs (intstr.FromString "http") scenario.app
           8080 eq_refl).
Defined.

(** *** Numerals kept as strings *)

Lemma pretty_N_char_digit (d : N) :
  (d < 10)%N ->
  strconv.isDigit (pretty_N_char d) = true
  ∧ (Z.of_nat (nat_of_ascii (pretty_N_char d)) - 48 = Z.of_N d)%Z.
Proof.
  intros Hd.
  assert (d = 0 ∨ d = 1 ∨ d = 2 ∨ d = 3 ∨ d = 4 ∨ d = 5 ∨ d = 6 ∨ d = 7 ∨ d = 8 ∨ d = 9)%N
    as Hcases by lia.
  repeat (destruct Hcases as [->|Hcases]; [split; reflexivity|]).
  subst d. split; reflexivity.
Qed.

(** Reading back the digits [pretty_N_go] puts in front of [s], as long as
    the value stays within 64 bits. *)
Lemma digitsValue_pretty_N_go (x : N) :
  forall s acc, exists k : Z,
    (0 <= k)%Z
    ∧ ((0 <= acc)%Z -> (acc * 10 ^ k + Z.of_N x < 2 ^ 64)%Z ->
       strconv.digitsValue acc (pretty_N_go x s)
       = strconv.digitsValue (acc * 10 ^ k + Z.of_N x)%Z s).
Proof.
  induction (N.lt_wf_0 x) as [x _ IH]. intros s acc.
  destruct (decide (x = 0%N)) as [->|Hpos].
  - exists 0%Z. rewrite pretty_N_go_0. split; [lia|]. intros _ _. f_equal. lia.
  - rewrite pretty_N_go_step by lia.
    destruct (IH (x `div` 10)%N ltac:(apply N.div_lt; lia)
                 (String (pretty_N_char (x `mod` 10)) s) acc) as (k & Hk & Hread).
    destruct (pretty_N_char_digit (x `mod` 10)%N ltac:(apply N.mod_lt; lia)) as [Hdig Hval].
    exists (k + 1)%Z. split; [lia|]. intros Hacc Hbound.
    pose proof (N.div_mod x 10 ltac:(lia)) as Hdm.
    apply (f_equal Z.of_N) in Hdm. rewrite N2Z.inj_add, N2Z.inj_mul in Hdm.
    change (Z.of_N 10) with 10%Z in Hdm.
    pose proof (N2Z.is_nonneg (x `div` 10)) as Hdiv.
    pose proof (N2Z.is_nonneg (x `mod` 10)) as Hmod.
    assert (Hpow : (0 <= acc * 10 ^ k)%Z) by (apply Z.mul_nonneg_nonneg; lia).
    rewrite Z.pow_add_r, Z.pow_1_r in * by lia.
    replace (acc * (10 ^ k * 10))%Z with (acc * 10 ^ k * 10)%Z in * by ring.
    set (shifted := (acc * 10 ^ k)%Z) in *.
    rewrite Hread by lia.
    cbn [strconv.digitsValue]. rewrite Hdig, Hval. cbv zeta.
    replace ((shifted + Z.of_N (x `div` 10)) * 10 + Z.of_N (x `mod` 10))%Z
      with (shifted * 10 + Z.of_N x)%Z by lia.
    destruct (Z.leb_spec (2 ^ 64) (shifted * 10 + Z.of_N x)); [lia|reflexivity].
Qed.

Lemma digitsValue_pretty_positive (p : positive) :
  (Z.pos p < 2 ^ 64)%Z ->
  strconv.digitsValue 0 (pretty (N.pos p)) = strconv.Digits (Z.pos p).
Proof.
  intros Hp. unfold pretty, pretty_N. rewrite decide_False by done.
  destruct (digitsValue_pretty_N_go (N.pos p) "" 0) as (k & _ & Hread).
  rewrite Hread by (rewrite ?Z.mul_0_l; cbn [Z.of_N]; lia).
  cbn [strconv.digitsValue]. f_equal.
Qed.

(** A run of bytes that has a value starts with a digit or is empty. *)
Lemma digitsValue_head c r n :
  strconv.digitsValue 0 (String c r) = strconv.Digits n ->
  Ascii.eqb c "-" = false ∧ Ascii.eqb c "+" = false.
Proof.
  cbn [strconv.digitsValue]. destruct (strconv.isDigit c) eqn:Hdig; [|discriminate].
  intros _. split.
  - destruct (Ascii.eqb_spec c "-") as [->|]; [discriminate Hdig|reflexivity].
  - destruct (Ascii.eqb_spec c "+") as [->|]; [discriminate Hdig|reflexivity].
Qed.

(** [Atoi] reads back what [Itoa] writes, for every 64-bit integer. *)
Lemma Atoi_Itoa (n : Z) :
  (- 2 ^ 63 <= n < 2 ^ 63)%Z -> strconv.Atoi (strconv.Itoa n) = (n, None).
Proof.
  intros Hn. unfold strconv.Itoa, pretty, pretty_Z. destruct n as [|p|p].
  - reflexivity.
  - change (pretty p) with (pretty (N.pos p)).
    pose proof (digitsValue_pretty_positive p ltac:(lia)) as Hval.
    destruct (pretty (N.pos p)) as [|c r]; [discriminate Hval|].
    destruct (digitsValue_head _ _ _ Hval) as [Hminus Hplus].
    unfold strconv.Atoi. rewrite Hminus, Hplus. cbn [orb]. rewrite Hval.
    destruct (Z.leb_spec (2 ^ 63) (Z.pos p)); [lia|reflexivity].
  - change (pretty p) with (pretty (N.pos p)).
    pose proof (digitsValue_pretty_positive p ltac:(lia)) as Hval.
    destruct (pretty (N.pos p)) as [|c r]; [discriminate Hval|].
    unfold strconv.Atoi.
    change ("-" +:+ String c r) with (String "-" (String c r)). cbv iota beta.
    change (Ascii.eqb "-" "-") with true. cbn [orb]. rewrite Hval.
    destruct (Z.ltb_spec (2 ^ 63) (Z.pos p)); [lia|reflexivity].
Qed.

(** [int32] keeps the integers of the 32-bit range. *)
Lemma int32_small (n : Z) : (- 2 ^ 31 <= n < 2 ^ 31)%Z -> errors.int32 n = n.
Proof. intros Hn. unfold errors.int32. rewrite Z.mod_small by lia. lia. Qed.

Section Numerals.
Context `{Libraries}.

(** X10: a 32-bit port number written as a decimal string resolves as the
    literal does, as long as the container declares no port with that
    string as its name: same port, same error. *)
Theorem extractPort_numeral_string (n : Z) (container : Container) :
  (- 2 ^ 31 <= n < 2 ^ 31)%Z ->
  Forall (fun port => ContainerPort_Name port ≠ strconv.Itoa n) (Ports container) ->
  extractPort (intstr.FromString (strconv.Itoa n)) container
  = extractPort (intstr.FromInt n) container.
Proof.
  intros Hn Hports. unfold extractPort, intstr.FromString, intstr.FromInt.
  rewrite (int32_small n Hn).
  cbn [intstr.Type_ intstr.StrVal intstr.IntVal intstr.IntValue Z.eqb intstr.Int
       intstr.String Pos.eqb].
  rewrite ProberFacts.findPortByName_filter.
  assert (filter (fun port => ContainerPort_Name port = strconv.Itoa n) (Ports container)
          = []) as ->.
  { induction Hports as [|q rest Hq _ IH]; [reflexivity|].
    rewrite filter_cons. by rewrite decide_False. }
  by rewrite Atoi_Itoa by lia.
Qed.

End Numerals.

Lemma extractPort_numeral_string_witness :
  @extractPort scenario.libs (intstr.FromString (strconv.Itoa 9090)) scenario.app
  = @extractPort scenario.libs (intstr.FromInt 9090) scenario.app.
Proof.
  apply (@extractPort_numeral_string scenario.libs 9090 scenario.app).
  - lia.
  - repeat constructor; discriminate.
Defined.

(** *** Header map, continued *)

Lemma valuesFor_app name (l1 l2 : list HTTPHeader) :
  spec.valuesFor name (l1 ++ l2) = (spec.valuesFor name l1 ++ spec.valuesFor name l2)%list.
Proof. unfold spec.valuesFor. by rewrite filter_app, fmap_app. Qed.

Lemma valuesFor_nil_iff name (l : list HTTPHeader) :
  spec.valuesFor name l = [] <-> Forall (fun header => HTTPHeader_Name header ≠ name) l.
Proof.
  unfold spec.valuesFor. induction l as [|header rest IH]; [by split|].
  rewrite filter_cons, Forall_cons.
  destruct (decide (HTTPHeader_Name header = name)) as [Heq|Hne].
  - split; [discriminate|]. intros [Hne _]. by destruct Hne.
  - rewrite IH. tauto.
Qed.

(** X11: the header map has an entry for exactly the names that occur in
    the list, and no entry is an empty list of values. *)
Theorem buildHeader_entries (headerList : list HTTPHeader) (name : string) :
  (is_Some (buildHeader headerList !! name)
   <-> exists header, header ∈ headerList ∧ HTTPHeader_Name header = name)
  ∧ buildHeader headerList !! name ≠ Some [].
Proof.
  unfold buildHeader. rewrite ProberFacts.fold_appendHeader_lookup, lookup_empty.
  destruct (spec.valuesFor name headerList) as [|v vs] eqn:Hvalues.
  - split; [|done]. apply valuesFor_nil_iff in Hvalues.
    split; [by intros [? [=]]|]. intros (header & Hin & Hname).
    by eapply Forall_forall in Hvalues.
  - split; [|done]. split; [|by eauto]. intros _.
    destruct (decide (Exists (fun header => HTTPHeader_Name header = name) headerList))
      as [Hex|Hnone].
    + apply Exists_exists in Hex. exact Hex.
    + apply not_Exists_Forall in Hnone; [|intros ?; apply _].
      apply valuesFor_nil_iff in Hnone. congruence.
Qed.

(** X12: the header map of a concatenation is the union of the two maps,
    a name present in both getting the values of the first list followed by
    those of the second. *)
Theorem buildHeader_app (l1 l2 : list HTTPHeader) :
  buildHeader (l1 ++ l2)
  = union_with (fun vs1 vs2 => Some (vs1 ++ vs2)%list) (buildHeader l1) (buildHeader l2).
Proof.
  apply map_eq. intros name. rewrite lookup_union_with. unfold buildHeader.
  rewrite !ProberFacts.fold_appendHeader_lookup, lookup_empty, valuesFor_app.
  destruct (spec.valuesFor name l1), (spec.valuesFor name l2); cbn; try reflexivity.
  by rewrite app_nil_r.
Qed.

(** *** Attempts and the calls they make *)

Section Planned.
Context `{Libraries} {W : Type} (pb : prober W).
Variables (p : Probe) (pod : Pod) (status : PodStatus) (container : Container)
          (containerID : ContainerID).

Local Abbreviation planned := (observe.plannedCalls p pod status container containerID).

(** An attempt either is refused before any primitive runs, or hands one
    call, fixed by the probe and the container, to its primitive. *)
Lemma runProbe_planned_cases :
  (planned = []
   ∧ exists err, forall W' (pb' : prober W') w,
       runProbe pb' p pod status container containerID w
       = ((probe.Unknown, "", Some err), w))
  ∨ (exists call,
        planned = [call]
        ∧ forall W' (pb' : prober W') w,
            runProbe pb' p pod status container containerID w = perform pb' call w).
Proof.
  unfold observe.plannedCalls, runProbe.
  destruct (Exec p) as [e|]; [right; eexists; split; reflexivity|].
  destruct (HTTPGet p) as [h|].
  { destruct (extractPort (HTTPGet_Port h) container) as [port [err|]].
    - left. split; [reflexivity|]. by exists err.
    - right. eexists. split; reflexivity. }
  destruct (TCPSocket p) as [t|].
  { destruct (extractPort (TCPSocket_Port t) container) as [port [err|]].
    - left. split; [reflexivity|]. by exists err.
    - right. eexists. split; reflexivity. }
  left. split; [reflexivity|]. eexists. reflexivity.
Qed.

(** Under observation an attempt appends its planned calls to the log. *)
Lemma runProbe_traced_planned (w : W) (log : list ProbeCall) :
  runProbe (traced pb) p pod status container containerID (w, log)
  = (fst (runProbe pb p pod status container containerID w),
     (snd (runProbe pb p pod status container containerID w), (log ++ planned)%list)).
Proof.
  destruct runProbe_planned_cases as [[-> [err Hrun]]|(call & -> & Hrun)].
  - rewrite !Hrun. cbn. by rewrite app_nil_r.
  - rewrite !Hrun. destruct call; cbn; unfold logged; cbn;
      match goal with |- context [?f pb ?a ?b ?c w] => by destruct (f pb a b c w)
                    | |- context [?f pb ?a w] => by destruct (f pb a w) end.
Qed.

Lemma retryLoop_traced_planned n last probeType (w : W) (log : list ProbeCall) :
  exists k, k <= n ∧ (0 < n -> 0 < k)
    ∧ snd (snd (retryLoop (traced pb) n last probeType p pod status container
                          containerID (w, log)))
      = (log ++ concat (replicate k planned))%list.
Proof.
  revert last w log. induction n as [|n IH]; intros last w log; cbn [retryLoop].
  - exists 0. split; [lia|]. split; [lia|]. cbn. by rewrite app_nil_r.
  - rewrite runProbe_traced_planned.
    destruct (runProbe pb p pod status container containerID w)
      as [[[result output] [err|]] w']; cbn [fst snd].
    + destruct (IH (result, output, Some err) w' (log ++ planned)%list)
        as (k & Hk & _ & ->).
      exists (S k). split; [lia|]. split; [lia|]. cbn. by rewrite app_assoc.
    + exists 1. split; [lia|]. split; [lia|]. cbn. by rewrite app_nil_r.
Qed.

(** X13: an attempt makes at most one primitive invocation, the same for
    every prober and every outside state; an exec action is always invoked
    and goes before an HTTP action, which goes before a TCP action. *)
Theorem plannedCalls_priority :
  length planned <= 1
  ∧ (forall (w : W) log,
        snd (snd (runProbe (traced pb) p pod status container containerID (w, log)))
        = (log ++ planned)%list)
  ∧ (is_Some (Exec p) -> exists cmd, planned = [ExecCall cmd])
  ∧ (forall url headers timeout,
        HTTPCall url headers timeout ∈ planned -> Exec p = None ∧ is_Some (HTTPGet p))
  ∧ (forall host port timeout,
        TCPCall host port timeout ∈ planned ->
        Exec p = None ∧ HTTPGet p = None ∧ is_Some (TCPSocket p)).
Proof.
  split; [|split].
  { destruct runProbe_planned_cases as [[-> _]|(call & -> & _)]; cbn; lia. }
  { intros w log. by rewrite runProbe_traced_planned. }
  unfold observe.plannedCalls, runProbe.
  destruct (Exec p) as [e|].
  { cbn. split; [eauto|]. split; intros ? ? ? Hin; apply list_elem_of_singleton in Hin;
      discriminate. }
  split; [by intros [? [=]]|].
  destruct (HTTPGet p) as [h|].
  { destruct (extractPort (HTTPGet_Port h) container) as [port [err|]]; cbn.
    - split; intros ? ? ? Hin; by apply elem_of_nil in Hin.
    - split; intros ? ? ? Hin; apply list_elem_of_singleton in Hin; [eauto|discriminate]. }
  destruct (TCPSocket p) as [t|].
  { destruct (extractPort (TCPSocket_Port t) container) as [port [err|]]; cbn.
    - split; intros ? ? ? Hin; by apply elem_of_nil in Hin.
    - split; intros ? ? ? Hin; apply list_elem_of_singleton in Hin; [discriminate|eauto]. }
  cbn. split; intros ? ? ? Hin; by apply elem_of_nil in Hin.
Qed.

(** X14: the invocations of one retry cycle are between one and three
    repetitions of the attempt's planned calls: a retry never changes the
    call it makes. *)
Theorem runProbeWithRetries_repeats (probeType : string) (w : W) (log : list ProbeCall) :
  exists k,
    1 <= k <= 3
    ∧ snd (snd (runProbeWithRetries (traced pb) probeType p pod status container
                  containerID (w, log)))
      = (log ++ concat (replicate k planned))%list.
Proof.
  destruct (retryLoop_traced_planned 3 ("", "", None) probeType w log)
    as (k & Hk & Hpos & Hlog).
  exists k. split; [lia|exact Hlog].
Qed.

(** X15: when every primitive reports an error, the cycle makes all three
    attempts, ends with a non-nil error, and the wrapper answers Failure. *)
Theorem runProbeWithRetries_exhausted (probeType : string) (w : W) (log : list ProbeCall) :
  (forall call w', snd (fst (perform pb call w')) ≠ None) ->
  let cycle := runProbeWithRetries (traced pb) probeType p pod status container
                 containerID (w, log) in
  snd (fst cycle) ≠ None
  ∧ snd (snd cycle) = (log ++ planned ++ planned ++ planned)%list
  ∧ fst (fst (probe (traced pb) probeType (Some p) pod status container containerID
                    (w, log)))
    = results.Failure.
Proof.
  intros Hfail. cbv zeta.
  assert (Herr : forall w', snd (fst (runProbe pb p pod status container containerID w'))
                            ≠ None).
  { intros w'. destruct runProbe_planned_cases as [[_ [err Hrun]]|(call & _ & Hrun)];
      rewrite Hrun; [done|apply Hfail]. }
  assert (Hcycle : snd (fst (runProbeWithRetries (traced pb) probeType p pod status
                               container containerID (w, log))) ≠ None
                   ∧ snd (snd (runProbeWithRetries (traced pb) probeType p pod status
                                 container containerID (w, log)))
                     = (log ++ planned ++ planned ++ planned)%list).
  { unfold runProbeWithRetries. cbn [retryLoop].
    rewrite runProbe_traced_planned. pose proof (Herr w) as H1.
    destruct (runProbe pb p pod status container containerID w)
      as [[[r1 o1] [e1|]] w1]; [|done]. cbn [fst snd].
    rewrite runProbe_traced_planned. pose proof (Herr w1) as H2.
    destruct (runProbe pb p pod status container containerID w1)
      as [[[r2 o2] [e2|]] w2]; [|done]. cbn [fst snd].
    rewrite runProbe_traced_planned. pose proof (Herr w2) as H3.
    destruct (runProbe pb p pod status container containerID w2)
      as [[[r3 o3] [e3|]] w3]; [|done]. cbn [fst snd].
    split; [done|]. by rewrite <- !app_assoc. }
  destruct Hcycle as [Hnonnil Hlog]. split; [exact Hnonnil|]. split; [exact Hlog|].
  unfold probe.
  destruct (runProbeWithRetries (traced pb) probeType p pod status container
              containerID (w, log)) as [[[result output] err] wl].
  cbn [fst snd] in Hnonnil. rewrite bool_decide_eq_true_2 by done. reflexivity.
Qed.

(** X16: the wrapper sends no event when the container has no reference,
    nor when the cycle succeeded: the outside state is the one the cycle
    left. *)
Theorem probe_no_event (probeType : string) (w : W) :
  let cycle := runProbeWithRetries pb probeType p pod status container containerID w in
  refManager_GetRef pb containerID = None
  ∨ (snd (fst cycle) = None ∧ fst (fst (fst cycle)) = probe.Success) ->
  snd (probe pb probeType (Some p) pod status container containerID w) = snd cycle.
Proof.
  cbv zeta. unfold probe.
  destruct (runProbeWithRetries pb probeType p pod status container containerID w)
    as [[[result output] err] w1]. cbn [fst snd].
  intros [Hnoref|[-> ->]].
  - rewrite Hnoref. by destruct (_ || _).
  - reflexivity.
Qed.

End Planned.

Lemma runProbeWithRetries_exhausted_witness :
  let cycle := @runProbeWithRetries scenario.libs _ (traced fixtures.refusing) "Liveness"
                 (scenario.httpProbe (intstr.FromString "http")) scenario.web
                 (Status scenario.web) scenario.app scenario.c1 (0%nat, []) in
  let planned := @observe.plannedCalls scenario.libs
                   (scenario.httpProbe (intstr.FromString "http")) scenario.web
                   (Status scenario.web) scenario.app scenario.c1 in
  length planned = 1
  ∧ snd (fst cycle) ≠ None
  ∧ snd (snd cycle) = ([] ++ planned ++ planned ++ planned)%list
  ∧ fst (fst (@probe scenario.libs _ (traced fixtures.refusing) "Liveness"
                (Some (scenario.httpProbe (intstr.FromString "http"))) scenario.web
                (Status scenario.web) scenario.app scenario.c1 (0%nat, [])))
    = results.Failure.
Proof.
  cbv zeta. split; [vm_compute; reflexivity|].
  apply (@runProbeWithRetries_exhausted scenario.libs _ fixtures.refusing
           (scenario.httpProbe (intstr.FromString "http")) scenario.web
           (Status scenario.web) scenario.app scenario.c1 "Liveness" 0%nat []).
  intros [cmd|url headers timeout|host port timeout] w'; discriminate.
Defined.

Lemma probe_no_event_witness :
  snd (@probe scenario.libs _ scenario.flaky "Readiness"
         (Some (scenario.httpProbe (intstr.FromInt 8080))) scenario.web
         (Status scenario.web) scenario.app scenario.c1 0%nat)
  = snd (@runProbeWithRetries scenario.libs _ scenario.flaky "Readiness"
           (scenario.httpProbe (intstr.FromInt 8080)) scenario.web
           (Status scenario.web) scenario.app scenario.c1 0%nat).
Proof.
  apply (@probe_no_event scenario.libs _ scenario.flaky
           (scenario.httpProbe (intstr.FromInt 8080)) scenario.web
           (Status scenario.web) scenario.app scenario.c1 "Readiness" 0%nat).
  left. reflexivity.
Defined.

End ProberMore.

(** ** Readiness tracker and liveness dispatcher, continued *)

Module ManagerMore.
Import v1 kubecontainer manager.

(** *** Resolution of a UID *)

(** The scan of [GetPodStatus] stops at the first pod with the UID. *)
Lemma find_UID_head (pods : list Pod) uid :
  List.find (fun pod => String.eqb (UID pod) uid) pods
  = head (filter (fun q => UID q = uid) pods).
Proof.
  induction pods as [|q rest IH]; [reflexivity|].
  cbn [List.find]. rewrite filter_cons.
  destruct (String.eqb_spec (UID q) uid).
  - by rewrite decide_True.
  - by rewrite decide_False.
Qed.

(** The scan of [SetContainerReadiness] keeps the last pod with the UID. *)
Lemma findTargetPod_last (pods : list Pod) uid :
  findTargetPod pods uid = last (filter (fun q => UID q = uid) pods).
Proof.
  unfold findTargetPod.
  assert (Hgen : forall acc,
             fold_left (fun targetPod pod =>
                          if String.eqb (UID pod) uid then Some pod else targetPod)
                       pods acc
             = match last (filter (fun q => UID q = uid) pods) with
               | Some pod => Some pod
               | None => acc
               end).
  { induction pods as [|q rest IH]; intros acc; [reflexivity|].
    cbn [fold_left]. rewrite IH, filter_cons.
    destruct (String.eqb_spec (UID q) uid).
    - rewrite decide_True by done. rewrite last_cons.
      by destruct (last (filter _ rest)).
    - by rewrite decide_False. }
  rewrite Hgen. by destruct (last _).
Qed.

(** X17: [GetPodStatus] finds a status exactly for the UIDs that
    [SetContainerReadiness] resolves, namely those of the listed pods; for
    any other UID it returns the zero status and [false]. *)
Theorem GetPodStatus_found_iff (m : readinessManager) (uid : string) :
  (snd (GetPodStatus m uid) = true
   <-> exists pod, pod ∈ GetPods (rm m) ∧ UID pod = uid)
  ∧ (snd (GetPodStatus m uid) = true <-> is_Some (findTargetPod (GetPods (rm m)) uid))
  ∧ (snd (GetPodStatus m uid) = false ->
     GetPodStatus m uid = (mkPodStatus "" "" "" [], false)).
Proof.
  unfold GetPodStatus. rewrite find_UID_head, findTargetPod_last.
  destruct (filter (fun q => UID q = uid) (GetPods (rm m))) as [|pod rest] eqn:Hfilter.
  - cbn. split; [|split; [|done]].
    + split; [discriminate|]. intros (pod & Hin & Huid).
      assert (pod ∈ filter (fun q => UID q = uid) (GetPods (rm m))) as Hf
        by (by apply list_elem_of_filter).
      rewrite Hfilter in Hf. by apply elem_of_nil in Hf.
    + split; [discriminate|]. by intros [? [=]].
  - cbn [head fst snd]. split; [|split; [|discriminate]].
    + split; [|done]. intros _. exists pod.
      assert (pod ∈ filter (fun q => UID q = uid) (GetPods (rm m))) as Hf
        by (rewrite Hfilter; constructor).
      apply list_elem_of_filter in Hf as [Huid Hin]. auto.
    + split; [|done]. intros _. by apply last_is_Some.
Qed.

(** X18: when the UID resolves to one pod, [GetPodStatus] returns that
    pod's status and [SetContainerReadiness] targets that pod. *)
Theorem GetPodStatus_resolvesTo (m : readinessManager) (uid : string) (pod : Pod) :
  spec.resolvesTo (GetPods (rm m)) uid pod ->
  GetPodStatus m uid = (Status pod, true)
  ∧ findTargetPod (GetPods (rm m)) uid = Some pod.
Proof.
  unfold spec.resolvesTo, GetPodStatus. intros Hres.
  by rewrite find_UID_head, findTargetPod_last, Hres.
Qed.

Lemma GetPodStatus_resolvesTo_witness :
  GetPodStatus (NewReadinessManager [fixtures.job; scenario.web]) "u1"
  = (Status scenario.web, true)
  ∧ findTargetPod [fixtures.job; scenario.web] "u1" = Some scenario.web.
Proof.
  apply (GetPodStatus_resolvesTo (NewReadinessManager [fixtures.job; scenario.web]) "u1"
           scenario.web).
  reflexivity.
Defined.

(** *** Readiness *)



Lemma findTargetPod_None (pods : list Pod) uid :
  Forall (fun pod => UID pod ≠ uid) pods -> findTargetPod pods uid = None.
Proof.
  intros Hnone. rewrite findTargetPod_last.
  by rewrite (ManagerFacts.filter_UID_none pods uid Hnone).
Qed.

(** X20: a call whose UID no listed pod has, or whose container id is not
    among the statuses of the targeted pod, is a no-op: it returns the heap
    it was given. *)
Theorem SetContainerReadiness_unknown_noop (m : readinessManager) (podUID : string)
    (containerID : ContainerID) (ready : bool) (h : heap) :
  (Forall (fun pod => UID pod ≠ podUID) (GetPods (rm m))
   ∨ exists targetPod,
       findTargetPod (GetPods (rm m)) podUID = Some targetPod
       ∧ Forall (fun c => ContainerStatus_ContainerID c ≠ ContainerID_String containerID)
                (ContainerStatuses (Status targetPod))) ->
  SetContainerReadiness m podUID containerID ready h = Ret h.
Proof.
  intros [Hnone|Hcid]; apply ManagerFacts.SetContainerReadiness_unresolved.
  - left. by apply findTargetPod_None.
  - by right.
Qed.

Lemma SetContainerReadiness_unknown_noop_witness :
  SetContainerReadiness fixtures.registered "u9" scenario.c1 false fixtures.registeredHeap
  = Ret fixtures.registeredHeap
  ∧ SetContainerReadiness fixtures.registered "u1" (mkContainerID "docker" "c7") false
      fixtures.registeredHeap
    = Ret fixtures.registeredHeap.
Proof.
  split.
  - apply (SetContainerReadiness_unknown_noop fixtures.registered "u9" scenario.c1 false
             fixtures.registeredHeap).
    left. repeat constructor. discriminate.
  - apply (SetContainerReadiness_unknown_noop fixtures.registered "u1"
             (mkContainerID "docker" "c7") false fixtures.registeredHeap).
    right. exists scenario.web. split; [reflexivity|].
    repeat constructor. discriminate.
Defined.

(** X21: where the manager already reaches a map for the pod, the call
    returns, the lookup keeps returning that map, the container reads as the
    value set, and every other container, of this pod or of another map,
    reads as before. *)
Theorem SetContainerReadiness_registered_frame (m : readinessManager) (podUID : string)
    (containerID : ContainerID) (ready : bool) (h : heap) (targetPod : Pod)
    (c : ContainerStatus) (l0 l1 l2 : loc) (nsMap podMap : gmap string (option loc)) :
  findTargetPod (GetPods (rm m)) podUID = Some targetPod ->
  List.find (fun c => String.eqb (ContainerStatus_ContainerID c)
                                 (ContainerID_String containerID))
            (ContainerStatuses (Status targetPod)) = Some c ->
  readiness m = Some l0 ->
  namespaceMaps h !! l0 = Some nsMap ->
  nsMap !! Namespace targetPod = Some (Some l1) ->
  podMaps h !! l1 = Some podMap ->
  podMap !! Pod_Name targetPod = Some (Some l2) ->
  exists h',
    SetContainerReadiness m podUID containerID ready h = Ret h'
    ∧ GetPodContainersReadiness m (Namespace targetPod) (Pod_Name targetPod) h' = Some l2
    ∧ readReadiness h' (Some l2) (ContainerStatus_Name c) = ready
    ∧ (forall name, name ≠ ContainerStatus_Name c ->
                    readReadiness h' (Some l2) name = readReadiness h (Some l2) name)
    ∧ (forall l name, l ≠ l2 ->
                      readReadiness h' (Some l) name = readReadiness h (Some l) name).
Proof.
  intros Hpod Hc Hm Hns Hl1 Hpm Hl2.
  assert (Hindex : forall objs l (mp : gmap string (option loc)) k v,
             objs !! l = Some mp -> mp !! k = Some v ->
             index objs (Some l) k = (v, true)).
  { intros objs l mp k v Hobj Hk. unfold index. by rewrite Hobj; cbn; rewrite Hk. }
  unfold SetContainerReadiness, GetPodContainersReadiness, readReadiness.
  rewrite Hpod, Hc, Hm.
  rewrite (Hindex _ _ _ _ _ Hns Hl1), (Hindex _ _ _ _ _ Hpm Hl2).
  eexists. split; [reflexivity|]. cbn [namespaceMaps podMaps containerMaps].
  rewrite (Hindex _ _ _ _ _ Hns Hl1), (Hindex _ _ _ _ _ Hpm Hl2).
  split; [reflexivity|]. split; [|split].
  - rewrite lookup_insert_eq. simpl. by rewrite lookup_insert_eq.
  - intros name Hname. rewrite lookup_insert_eq. simpl. by rewrite lookup_insert_ne.
  - intros l name Hl. by rewrite lookup_insert_ne.
Qed.

Lemma SetContainerReadiness_registered_frame_witness :
  exists h',
    SetContainerReadiness fixtures.registered "u1" scenario.c1 false fixtures.registeredHeap
    = Ret h'
    ∧ GetPodContainersReadiness fixtures.registered "default" "web" h' = Some 3%positive
    ∧ readReadiness h' (Some 3%positive) "app" = false
    ∧ (forall name, name ≠ "app" ->
                    readReadiness h' (Some 3%positive) name
                    = readReadiness fixtures.registeredHeap (Some 3%positive) name)
    ∧ (forall l name, l ≠ 3%positive ->
                      readReadiness h' (Some l) name
                      = readReadiness fixtures.registeredHeap (Some l) name).
Proof.
  exact (SetContainerReadiness_registered_frame fixtures.registered "u1" scenario.c1 false
           fixtures.registeredHeap scenario.web (mkContainerStatus "app" "docker://c1")
           1%positive 2%positive 3%positive
           {[ "default" := Some 2%positive ]} {[ "web" := Some 3%positive ]}
           eq_refl eq_refl eq_refl eq_refl eq_refl eq_refl eq_refl).
Defined.

(** X22: [SetContainerReadiness] panics in one situation only: the pod and
    the container resolve, the manager reaches an entry for the pod, and
    that entry is a nil map.  In particular it never panics on a manager
    whose [readiness] map is nil. *)
Theorem SetContainerReadiness_panics_iff (m : readinessManager) (podUID : string)
    (containerID : ContainerID) (ready : bool) (h : heap) :
  (SetContainerReadiness m podUID containerID ready h = Panic
   <-> exists targetPod c ns,
       findTargetPod (GetPods (rm m)) podUID = Some targetPod
       ∧ List.find (fun c => String.eqb (ContainerStatus_ContainerID c)
                                        (ContainerID_String containerID))
                   (ContainerStatuses (Status targetPod)) = Some c
       ∧ index (namespaceMaps h) (readiness m) (Namespace targetPod) = (ns, true)
       ∧ index (podMaps h) ns (Pod_Name targetPod) = (None, true))
  ∧ (readiness m = None ->
     exists h', SetContainerReadiness m podUID containerID ready h = Ret h').
Proof.
  split; [|intros Hnil; destruct m as [pods r]; cbn in Hnil; subst r;
           apply ManagerFacts.SetContainerReadiness_new_returns].
  unfold SetContainerReadiness. split.
  - destruct (findTargetPod _ _) as [targetPod|] eqn:Htarget; [|discriminate].
    destruct (List.find _ _) as [c|] eqn:Hc; [|discriminate].
    destruct (index (namespaceMaps h) _ _) as [ns [|]] eqn:Hns.
    + destruct (index (podMaps h) ns _) as [[l|] [|]] eqn:Hpod; cbn; try discriminate.
      intros _. exists targetPod, c, ns. auto.
    + cbn. rewrite lookup_insert_eq. cbn. discriminate.
  - intros (targetPod & c & ns & -> & -> & -> & ->). reflexivity.
Qed.

(** The nil entry at work: the write into it panics. *)
Lemma SetContainerReadiness_nil_entry_panics :
  SetContainerReadiness fixtures.registered "u1" scenario.c1 true fixtures.nilEntryHeap
  = Panic.
Proof. vm_compute. reflexivity. Qed.

(** *** Liveness, continued *)

Section LivenessMore.
Variable sentinel : string.

(** The update sent for a pod. *)
Local Abbreviation updateOf :=
  (fun pod : Pod => mkLivenessUpdate (Namespace pod) (Pod_Name pod)).

(** The loop notifies the pods with the UID in list order, up to the first
    terminated one. *)
Lemma rangePods_prefix (pods : list Pod) (uid : string) :
  forall sent, exists notified rest,
    filter (fun q => UID q = uid) pods = (notified ++ rest)%list
    ∧ Forall (fun pod => terminated sentinel pod = false) notified
    ∧ match rest with
      | [] => True
      | pod :: _ => terminated sentinel pod = true
      end
    ∧ rangePods sentinel pods uid sent = (sent ++ (updateOf <$> notified))%list.
Proof.
  induction pods as [|q pods IH]; intros sent.
  - exists [], []. repeat split; [constructor|]. cbn. by rewrite app_nil_r.
  - rewrite filter_cons. cbn [rangePods].
    destruct (String.eqb_spec (UID q) uid) as [Heq|Hne].
    + rewrite decide_True by done.
      destruct (terminated sentinel q) eqn:Hterm.
      * exists [], (q :: filter (fun q => UID q = uid) pods).
        repeat split; [constructor|done|]. cbn. by rewrite app_nil_r.
      * destruct (IH (sent ++ [updateOf q])%list) as (notified & rest & -> & Hall & Hrest & ->).
        exists (q :: notified), rest.
        repeat split; [by constructor|done|]. cbn. by rewrite <- app_assoc.
    + rewrite decide_False by done. apply IH.
Qed.

(** X23: the updates sent for a Failure update are those of the pods with
    its UID, in list order, up to (not including) the first terminated one;
    the pods behind a terminated one are not notified.  Any other update
    sends nothing. *)
Theorem updatePodLiveness_prefix (rm : ResourceManager) (update : Update) :
  exists notified rest,
    filter (fun q => UID q = PodUID update) (GetPods rm) = (notified ++ rest)%list
    ∧ Forall (fun pod => ¬ spec.terminal sentinel pod) notified
    ∧ match rest with
      | [] => True
      | pod :: _ => spec.terminal sentinel pod
      end
    ∧ updatePodLiveness sentinel rm update
      = if decide (Result update = results.Failure) then updateOf <$> notified else [].
Proof.
  destruct (rangePods_prefix (GetPods rm) (PodUID update) [])
    as (notified & rest & Hfilter & Hall & Hrest & Hrange).
  exists notified, rest. split; [exact Hfilter|]. split; [|split].
  - eapply Forall_impl; [exact Hall|]. intros pod Hfalse Hterm.
    apply ManagerFacts.terminated_terminal in Hterm. congruence.
  - destruct rest as [|pod ?]; [done|]. by apply ManagerFacts.terminated_terminal.
  - unfold updatePodLiveness. destruct (decide (Result update = results.Failure)).
    + by rewrite bool_decide_eq_true_2.
    + by rewrite bool_decide_eq_false_2.
Qed.

(** X24: nothing is sent exactly when the update is not a Failure, or no
    pod has its UID, or the first pod with its UID is terminated. *)
Theorem updatePodLiveness_nil_iff (rm : ResourceManager) (update : Update) :
  updatePodLiveness sentinel rm update = []
  <-> Result update ≠ results.Failure
      ∨ match filter (fun q => UID q = PodUID update) (GetPods rm) with
        | [] => True
        | pod :: _ => spec.terminal sentinel pod
        end.
Proof.
  unfold updatePodLiveness.
  destruct (decide (Result update = results.Failure)) as [Hfail|Hother].
  - rewrite bool_decide_eq_true_2 by done.
    destruct (rangePods_prefix (GetPods rm) (PodUID update) [])
      as (notified & rest & -> & Hall & Hrest & ->). cbn [app].
    destruct notified as [|pod notified]; cbn.
    + split; [|done]. intros _. right.
      destruct rest; [done|]. by apply ManagerFacts.terminated_terminal.
    + split; [discriminate|]. intros [Hne|Hterm]; [done|].
      apply ManagerFacts.terminated_terminal in Hterm.
      apply Forall_cons in Hall as [Hfalse _]. congruence.
  - rewrite bool_decide_eq_false_2 by done. split; auto.
Qed.

(** X25: every update sent carries the namespace and name of a listed pod
    that has the UID of a Failure update and is not terminal: no update is
    sent for a terminated pod or for a pod with another UID. *)
Theorem updatePodLiveness_sound (rm : ResourceManager) (update : Update)
    (sent : LivenessUpdate) :
  sent ∈ updatePodLiveness sentinel rm update ->
  Result update = results.Failure
  ∧ exists pod,
      pod ∈ GetPods rm ∧ UID pod = PodUID update ∧ ¬ spec.terminal sentinel pod
      ∧ sent = mkLivenessUpdate (Namespace pod) (Pod_Name pod).
Proof.
  unfold updatePodLiveness. case_bool_decide as Hfail; [|by intros ?%elem_of_nil].
  intros Hsent. split; [exact Hfail|].
  destruct (rangePods_prefix (GetPods rm) (PodUID update) [])
    as (notified & rest & Hfilter & Hall & _ & Hrange).
  rewrite Hrange in Hsent. cbn [app] in Hsent.
  apply list_elem_of_fmap in Hsent as (pod & -> & Hin).
  exists pod.
  assert (pod ∈ filter (fun q => UID q = PodUID update) (GetPods rm)) as Hf
    by (rewrite Hfilter; apply elem_of_app; by left).
  apply list_elem_of_filter in Hf as [Huid Hpod].
  repeat split; try done.
  intros Hterm. apply ManagerFacts.terminated_terminal in Hterm.
  eapply Forall_forall in Hall; [|exact Hin]. cbn in Hall. congruence.
Qed.

End LivenessMore.

Lemma updatePodLiveness_sound_witness :
  Result (scenario.failureOf "u1") = results.Failure
  ∧ exists pod,
      pod ∈ [fixtures.job; scenario.web] ∧ UID pod = PodUID (scenario.failureOf "u1")
      ∧ ¬ spec.terminal "ProviderFailed" pod
      ∧ mkLivenessUpdate "default" "web"
        = mkLivenessUpdate (Namespace pod) (Pod_Name pod).
Proof.
  apply (updatePodLiveness_sound "ProviderFailed" [fixtures.job; scenario.web]
           (scenario.failureOf "u1") (mkLivenessUpdate "default" "web")).
  constructor.
Defined.

End ManagerMore.
